(** * meeting-notes-backend: the extract-action-items request handler

    A shallow embedding of [src/server.js].  The handler of
    [POST /api/extract-action-items] is a short effectful program: it
    validates [req.body.notes], issues one chat-completion call, parses
    the reply with [JSON.parse], gives every element of [actionItems] an
    [id] and answers; every exception ends in the [catch] block, which
    picks the status from the text of [error.message].

    The embedding keeps the shape of the source.  JavaScript values are an
    inductive type, numbers are binary64 values, strings are sequences of
    UTF-16 code units, objects are finite maps from property names to
    values, and the handler runs in a small state-and-exception monad whose
    state records the external calls made (the completion calls issued and
    the number of clock readings).  Every answer goes through [res.json],
    which throws when the body is nested too deeply for the call stack. *)

From Stdlib Require Import ZArith NArith List String Ascii Bool Lia.
From Stdlib Require Import DecimalN SpecFloat.
From stdpp Require Import base option list numbers gmap.

Set Warnings "-register-all".
#[local] Open Scope N_scope.

(** ** JavaScript built-ins used by the handler *)

Module JS.

(** A JavaScript string is a sequence of 16-bit code units; [length] counts
    code units. *)
Abbreviation jsstring := (list N).

(** Source literals are ASCII: a literal is read one code unit per
    character. *)
Definition lit (s : string) : jsstring :=
  N_of_ascii <$> list_ascii_of_string s.

Definition String_length (s : jsstring) : N := N.of_nat (length s).

(** [WhiteSpace] and [LineTerminator] code points of ECMAScript, the ones
    [String.prototype.trim] strips: TAB, LF, VT, FF, CR, SP, NBSP, the
    other space separators (category Zs), LS, PS and the byte order mark.
    All of them are single code units. *)
Definition is_white_space (c : N) : bool :=
  (9 <=? c) && (c <=? 13)
  || (c =? 32) || (c =? 160) || (c =? 5760)
  || (8192 <=? c) && (c <=? 8202)
  || (c =? 8232) || (c =? 8233) || (c =? 8239) || (c =? 8287)
  || (c =? 12288) || (c =? 65279).

Fixpoint trimStart (s : jsstring) : jsstring :=
  match s with
  | c :: r => if is_white_space c then trimStart r else s
  | [] => []
  end.

Definition trimEnd (s : jsstring) : jsstring := reverse (trimStart (reverse s)).

Definition trim (s : jsstring) : jsstring := trimEnd (trimStart s).

(** [s.startsWith(p)] and [s.includes(p)]. *)
Fixpoint startsWith (s p : jsstring) : bool :=
  match p, s with
  | [], _ => true
  | _ :: _, [] => false
  | a :: p', b :: s' => (a =? b) && startsWith s' p'
  end.

Fixpoint includes (s p : jsstring) : bool :=
  startsWith s p ||
  match s with
  | [] => false
  | _ :: r => includes r p
  end.

(** Decimal digits of a natural number, most significant first, as
    [Number::toString] writes an integer. *)
Fixpoint uint_units (d : Decimal.uint) : jsstring :=
  match d with
  | Decimal.Nil => []
  | Decimal.D0 d => 48 :: uint_units d
  | Decimal.D1 d => 49 :: uint_units d
  | Decimal.D2 d => 50 :: uint_units d
  | Decimal.D3 d => 51 :: uint_units d
  | Decimal.D4 d => 52 :: uint_units d
  | Decimal.D5 d => 53 :: uint_units d
  | Decimal.D6 d => 54 :: uint_units d
  | Decimal.D7 d => 55 :: uint_units d
  | Decimal.D8 d => 56 :: uint_units d
  | Decimal.D9 d => 57 :: uint_units d
  end.

Definition decimal (n : N) : jsstring := uint_units (N.to_uint n).

(** [String(t)] for an integral Number [t].  Time values and array indices
    are integers of magnitude below 10^21, where [Number::toString] is the
    plain decimal numeral with a leading minus sign for negatives. *)
Definition Number_toString (t : Z) : jsstring :=
  if (t <? 0)%Z then 45 :: decimal (Z.abs_N t) else decimal (Z.to_N t).

(** Values.  [JSON.parse] produces exactly these; [undefined] is not one
    of them and is [None] wherever the source can meet it (a missing
    property, a missing body).  A number is an IEEE 754 binary64 value;
    [JSON.parse] yields it in the normal form that [Number_of_decimal]
    computes, so that [1] and [1.0] are one value, and [1e400] is the
    infinity.  An object is the finite map of its own enumerable
    properties; the enumeration order of the properties is not
    modelled. *)
Inductive JSValue : Type :=
| JNull
| JBool (b : bool)
| JDouble (x : spec_float)
| JString (s : jsstring)
| JArray (elems : list JSValue)
| JObject (props : gmap jsstring JSValue).

(** The Number value of the decimal numeral with the sign [negative] and
    the magnitude [|m| * 10^e]: the binary64 value nearest to it, ties to
    even, an infinity beyond the largest finite value, and a zero of that
    sign below half the smallest. *)
Definition Number_of_decimal (negative : bool) (m e : Z) : spec_float :=
  match Z.abs m with
  | Zpos p =>
    if (0 <=? e)%Z then
      binary_round 53 1024 negative (Z.to_pos (Zpos p * 10 ^ e)) 0
    else
      let '(q, e', l) :=
        SFdiv_core_binary 53 1024 (Zpos p) 0 (10 ^ (- e)) 0 in
      binary_round_aux 53 1024 negative q e' l
  | _ => S754_zero negative
  end.

(** The number written [m * 10^e], as [JSON.parse] reads it. *)
Definition JNumber (m e : Z) : JSValue :=
  JDouble (Number_of_decimal (m <? 0)%Z m e).

(** [ToBoolean]. *)
Definition truthy (v : option JSValue) : bool :=
  match v with
  | None => false
  | Some JNull => false
  | Some (JBool b) => b
  | Some (JDouble x) =>
    match x with
    | S754_zero _ | S754_nan => false
    | _ => true
    end
  | Some (JString s) => negb (String_length s =? 0)
  | Some (JArray _) => true
  | Some (JObject _) => true
  end.

Definition Array_isArray (v : option JSValue) : bool :=
  match v with
  | Some (JArray _) => true
  | _ => false
  end.

(** [typeof v === 'string']. *)
Definition typeof_string (v : option JSValue) : bool :=
  match v with
  | Some (JString _) => true
  | _ => false
  end.

(** The own enumerable properties of a value, as object spread
    ([CopyDataProperties]) sees them: the fields of an object, the indexed
    elements of an array, the indexed one-unit strings of a string, and
    nothing for [null], [undefined], booleans and numbers. *)
Definition indexed (l : list JSValue) : gmap jsstring JSValue :=
  list_to_map (imap (fun i v => (decimal (N.of_nat i), v)) l).

Definition own_properties (v : option JSValue) : gmap jsstring JSValue :=
  match v with
  | Some (JObject props) => props
  | Some (JArray elems) => indexed elems
  | Some (JString s) => indexed ((fun c => JString [c]) <$> s)
  | _ => ∅
  end.

(** The object literal [{ k: v, ...item }]: [k] is defined first and the
    spread then defines every own property of [item], overwriting [k] when
    [item] has a property of that name. *)
Definition spread_over (k : jsstring) (v : JSValue) (item : option JSValue)
  : gmap jsstring JSValue :=
  own_properties item ∪ {[ k := v ]}.

(** Whether [JSON.stringify] returns on a value when the call stack has
    room for [stack] more nested calls.  It calls itself once for every
    level of nested arrays and objects; when the stack is exhausted the
    engine throws a [RangeError]. *)
Fixpoint serializes (stack : nat) (v : JSValue) {struct stack} : bool :=
  match v, stack with
  | JArray _, O | JObject _, O => false
  | JArray elems, S stack' => forallb (serializes stack') elems
  | JObject props, S stack' =>
    forallb (fun entry => serializes stack' entry.2) (map_to_list props)
  | _, _ => true
  end.

(** *** [JSON.parse]

    The reader follows the JSON grammar of ECMA-404, which is what
    [JSON.parse] accepts: the four white space characters, the three
    literal names, numbers, strings with their escapes, arrays and
    objects.  A repeated member name keeps the last value.  A text that is
    not a single JSON value makes [JSON.parse] throw a [SyntaxError]:
    here the result is [None]. *)

Definition is_json_ws (c : N) : bool :=
  (c =? 32) || (c =? 9) || (c =? 10) || (c =? 13).

Fixpoint skip_ws (s : jsstring) : jsstring :=
  match s with
  | c :: r => if is_json_ws c then skip_ws r else s
  | [] => []
  end.

Definition digit_val (c : N) : option Z :=
  if (48 <=? c) && (c <=? 57) then Some (Z.of_N (c - 48)) else None.

Definition hex_val (c : N) : option N :=
  if (48 <=? c) && (c <=? 57) then Some (c - 48)
  else if (65 <=? c) && (c <=? 70) then Some (c - 55)
  else if (97 <=? c) && (c <=? 102) then Some (c - 87)
  else None.

(** The unit a one-character escape stands for. *)
Definition escape_unit (c : N) : option N :=
  if c =? 34 then Some 34
  else if c =? 92 then Some 92
  else if c =? 47 then Some 47
  else if c =? 98 then Some 8
  else if c =? 102 then Some 12
  else if c =? 110 then Some 10
  else if c =? 114 then Some 13
  else if c =? 116 then Some 9
  else None.

Inductive StringState : Type :=
| InPlain
| InEscape
| InHex (remaining : nat) (acc : N).

(** The characters of a string after its opening quote, up to and
    including the closing quote; [acc] holds the units read so far, last
    first. *)
Fixpoint parse_chars (st : StringState) (acc s : jsstring)
  : option (jsstring * jsstring) :=
  match s with
  | [] => None
  | c :: r =>
    match st with
    | InPlain =>
      if c =? 34 then Some (reverse acc, r)
      else if c =? 92 then parse_chars InEscape acc r
      else if c <? 32 then None
      else parse_chars InPlain (c :: acc) r
    | InEscape =>
      if c =? 117 then parse_chars (InHex 4 0) acc r
      else match escape_unit c with
           | Some u => parse_chars InPlain (u :: acc) r
           | None => None
           end
    | InHex k h =>
      match hex_val c, k with
      | Some d, 1%nat => parse_chars InPlain ((h * 16 + d) :: acc) r
      | Some d, S k' => parse_chars (InHex k' (h * 16 + d)) acc r
      | _, _ => None
      end
    end
  end.

(** A run of decimal digits: its value on top of [acc], how many digits
    were read, and the rest of the text. *)
Fixpoint parse_digits (acc count : Z) (s : jsstring) : Z * Z * jsstring :=
  match s with
  | c :: r =>
    match digit_val c with
    | Some d => parse_digits (acc * 10 + d) (count + 1) r
    | None => (acc, count, s)
    end
  | [] => (acc, count, [])
  end.

Definition parse_int (s : jsstring) : option (Z * jsstring) :=
  match s with
  | c :: r =>
    if c =? 48 then Some (0%Z, r)
    else match digit_val c with
         | Some _ => let '(m, _, r') := parse_digits 0 0 s in Some (m, r')
         | None => None
         end
  | [] => None
  end.

Definition parse_frac (m : Z) (s : jsstring) : option (Z * Z * jsstring) :=
  match s with
  | 46 :: r =>
    let '(m', n, r') := parse_digits m 0 r in
    if (n =? 0)%Z then None else Some (m', n, r')
  | _ => Some (m, 0%Z, s)
  end.

Definition parse_exp (s : jsstring) : option (Z * jsstring) :=
  match s with
  | c :: r =>
    if (c =? 101) || (c =? 69) then
      let '(neg, r1) :=
        match r with
        | 45 :: r1 => (true, r1)
        | 43 :: r1 => (false, r1)
        | _ => (false, r)
        end in
      let '(x, n, r2) := parse_digits 0 0 r1 in
      if (n =? 0)%Z then None
      else Some (if neg then (- x)%Z else x, r2)
    else Some (0%Z, s)
  | [] => Some (0%Z, [])
  end.

Definition parse_number (s : jsstring) : option (JSValue * jsstring) :=
  let '(neg, s1) :=
    match s with
    | 45 :: r => (true, r)
    | _ => (false, s)
    end in
  '(m, s2) ← parse_int s1;
  '(m', n, s3) ← parse_frac m s2;
  '(x, s4) ← parse_exp s3;
  Some (JDouble (Number_of_decimal neg m' (x - n)%Z), s4).

Definition parse_literal (s : jsstring) : option (JSValue * jsstring) :=
  if startsWith s (lit "true") then Some (JBool true, drop 4 s)
  else if startsWith s (lit "false") then Some (JBool false, drop 5 s)
  else if startsWith s (lit "null") then Some (JNull, drop 4 s)
  else parse_number s.

(** One value, then the elements of an array after its first bracket, then
    the members of an object after its first brace.  Every call uses up
    one unit of [fuel]; [JSON_parse] supplies more than a text of its
    length can use. *)
Fixpoint parse_value (fuel : nat) (s : jsstring)
  : option (JSValue * jsstring) :=
  match fuel with
  | O => None
  | S fuel =>
    match skip_ws s with
    | [] => None
    | c :: r =>
      if c =? 123 then
        match skip_ws r with
        | 125 :: r' => Some (JObject ∅, r')
        | r' => parse_members fuel ∅ r'
        end
      else if c =? 91 then
        match skip_ws r with
        | 93 :: r' => Some (JArray [], r')
        | r' => parse_elements fuel [] r'
        end
      else if c =? 34 then
        '(str, r') ← parse_chars InPlain [] r;
        Some (JString str, r')
      else parse_literal (c :: r)
    end
  end
with parse_elements (fuel : nat) (acc : list JSValue) (s : jsstring)
  : option (JSValue * jsstring) :=
  match fuel with
  | O => None
  | S fuel =>
    '(v, r) ← parse_value fuel s;
    match skip_ws r with
    | 44 :: r' => parse_elements fuel (v :: acc) r'
    | 93 :: r' => Some (JArray (reverse (v :: acc)), r')
    | _ => None
    end
  end
with parse_members (fuel : nat) (acc : gmap jsstring JSValue) (s : jsstring)
  : option (JSValue * jsstring) :=
  match fuel with
  | O => None
  | S fuel =>
    match skip_ws s with
    | 34 :: r =>
      '(k, r1) ← parse_chars InPlain [] r;
      match skip_ws r1 with
      | 58 :: r2 =>
        '(v, r3) ← parse_value fuel r2;
        match skip_ws r3 with
        | 44 :: r4 => parse_members fuel (<[k := v]> acc) r4
        | 125 :: r4 => Some (JObject (<[k := v]> acc), r4)
        | _ => None
        end
      | _ => None
      end
    | _ => None
    end
  end.

Definition JSON_parse (text : jsstring) : option JSValue :=
  '(v, r) ← parse_value (2 * length text + 2) text;
  match skip_ws r with
  | [] => Some v
  | _ => None
  end.

End JS.
Export JS.

(** ** The world around the handler *)

(** A thrown value, as the [catch] block reads it: [error.message], which
    is [undefined] for a thrown value that has none. *)
Record JSError : Type := mkError { message : option jsstring }.

Definition Error (msg : string) : JSError := mkError (Some (lit msg)).

(** What the completion call sends, built at lines 59-99. *)
Record ChatMessage : Type := mkMessage { role : jsstring; content : jsstring }.

Record CompletionRequest : Type := mkRequest {
  messages : list ChatMessage;
  model : jsstring;
  temperature : JSValue;
  max_tokens : Z;
  response_format : jsstring
}.

(** What the completion call resolves to, as far as line 101 reads it:
    [choices], the [message] of a choice and its [content], each of which
    may be missing. *)
Record Choice : Type := mkChoice { choice_message : option (option jsstring) }.

Record ChatCompletion : Type := mkCompletion { choices : list Choice }.

Inductive Settled (A : Type) : Type :=
| Fulfilled (a : A)
| Rejected (error : JSError).
Arguments Fulfilled {A} a.
Arguments Rejected {A} error.

(** The environment of the handler: the clock behind [Date.now()], given
    as its successive readings; the provider behind
    [groq.chat.completions.create], given as the outcome of its [n]-th
    call; and the room on the engine's call stack when the answer is
    serialized, given as the number of levels of nested arrays and objects
    below the first that [JSON.stringify] can still enter. *)
Record Env : Type := mkEnv {
  clock : nat -> Z;
  provider : nat -> CompletionRequest -> Settled ChatCompletion;
  stack_depth : nat
}.

(** The external calls made so far. *)
Record State : Type := mkState {
  calls : list CompletionRequest;
  ticks : nat
}.

Definition initial : State := mkState [] 0.

Inductive Outcome (A : Type) : Type :=
| Returned (a : A)
| Thrown (error : JSError).
Arguments Returned {A} a.
Arguments Thrown {A} error.

(** Computations that read the environment, update the record of external
    calls and may throw. *)
Definition M (A : Type) : Type := Env -> State -> Outcome A * State.

Definition ret {A} (a : A) : M A := fun _ st => (Returned a, st).

Definition throw {A} (error : JSError) : M A := fun _ st => (Thrown error, st).

Definition bind {A B} (m : M A) (k : A -> M B) : M B :=
  fun env st =>
    match m env st with
    | (Returned a, st') => k a env st'
    | (Thrown error, st') => (Thrown error, st')
    end.

Definition try_catch {A} (m : M A) (handler : JSError -> M A) : M A :=
  fun env st =>
    match m env st with
    | (Returned a, st') => (Returned a, st')
    | (Thrown error, st') => handler error env st'
    end.

Declare Scope js_scope.
Delimit Scope js_scope with js.
Notation "'let*' x ':=' m 'in' k" := (bind m (fun x => k))
  (at level 10, x name, m at level 100, k at level 200) : js_scope.
#[local] Open Scope js_scope.

(** [Date.now()]: the next reading of the clock. *)
Definition Date_now : M Z :=
  fun env st =>
    (Returned (clock env (ticks st)), mkState (calls st) (S (ticks st))).

(** [await groq.chat.completions.create(request)]: the call is recorded
    and a rejected promise is thrown at the [await]. *)
Definition groq_chat_completions_create (request : CompletionRequest)
  : M ChatCompletion :=
  fun env st =>
    let st' := mkState (calls st ++ [request]) (ticks st) in
    match provider env (length (calls st)) request with
    | Fulfilled completion => (Returned completion, st')
    | Rejected error => (Thrown error, st')
    end.

(** [array.map((item, index) => ...)] with an effectful callback: the
    callback runs once per element, in ascending order of index. *)
Fixpoint Array_map {A B} (callback : A -> nat -> M B) (index : nat)
    (array : list A) : M (list B) :=
  match array with
  | [] => ret []
  | item :: rest =>
    let* item' := callback item index in
    let* rest' := Array_map callback (S index) rest in
    ret (item' :: rest')
  end.

(** ** The handler of [POST /api/extract-action-items] *)

(** An answer: the status code and the value handed to [res.json], which
    sends its JSON text. *)
Record Response : Type := mkResponse { status : Z; body : JSValue }.

(** [res.status(code).json(body)] and, with the status 200, [res.json(body)]:
    [JSON.stringify] serializes the body, and the [RangeError] it throws
    when the nesting of the body exhausts the call stack leaves the call.
    An object whose properties are strings is serialized whatever room the
    stack has. *)
Definition res_json (response : Response) : M Response :=
  fun env st =>
    if serializes (S (stack_depth env)) (body response) then
      (Returned response, st)
    else (Thrown (Error "Maximum call stack size exceeded"), st).

(** [res.status(code).json({ error: msg })]. *)
Definition error_response (code : Z) (msg : string) : Response :=
  mkResponse code (JObject {[ lit "error" := JString (lit msg) ]}).

Definition INVALID_INPUT : Response :=
  error_response 400 "Invalid input. Please provide meeting notes as a string.".

Definition TOO_SHORT : Response :=
  error_response 400
    "Meeting notes too short. Please provide at least 10 characters.".

Definition TOO_LONG : Response :=
  error_response 400
    "Meeting notes too long. Please limit to 50,000 characters.".

Definition API_CONFIGURATION_ERROR : Response :=
  error_response 500 "API configuration error. Please contact support.".

Definition TOO_MANY_REQUESTS : Response :=
  error_response 429 "Too many requests. Please try again in a moment.".

Definition FAILED_TO_PROCESS : Response :=
  error_response 500 "Failed to process meeting notes. Please try again.".

(** The messages of the [TypeError]s the engine raises when a property of
    [undefined] or [null] is read (the wording is V8's). *)
Definition cannot_destructure (missing : string) : JSError :=
  Error ("Cannot destructure property 'notes' of 'req.body' as it is "
         ++ missing ++ ".").

Definition cannot_read_actionItems : JSError :=
  Error "Cannot read properties of null (reading 'actionItems')".

(** Line 37, [const { notes } = req.body]: [req.body] is whatever the body
    parser left there, [None] when it left nothing.  No built-in prototype
    has a [notes] property, so only an object can have one. *)
Definition destructure_notes (req_body : option JSValue)
  : M (option JSValue) :=
  match req_body with
  | None => throw (cannot_destructure "undefined")
  | Some JNull => throw (cannot_destructure "null")
  | Some (JObject props) => ret (props !! lit "notes")
  | Some _ => ret None
  end.

(** The string behind a value that passed [typeof notes === 'string']. *)
Definition string_of (v : option JSValue) : jsstring :=
  match v with
  | Some (JString s) => s
  | _ => []
  end.

Definition quoted (s : string) : jsstring := [34] ++ lit s ++ [34].

(** Lines 63-88, the system instruction. *)
Definition SYSTEM_PROMPT : jsstring :=
  lit "You are an expert assistant that extracts action items from meeting notes. 
          
Analyze the meeting notes and extract ALL action items, tasks, or commitments mentioned.

For each action item, provide:
1. task: Clear description of what needs to be done
2. assignee: Person's name if mentioned (null if not specified)
3. priority: Classify as " ++ quoted "high" ++ lit ", " ++ quoted "medium"
  ++ lit ", or " ++ quoted "low" ++ lit " based on urgency indicators
4. deadline: Any mentioned date/time (null if not specified)
5. context: Brief context from the meeting (1 sentence)

IMPORTANT: Respond ONLY with valid JSON. No markdown, no explanations, just the JSON object.

Format:
{
  " ++ quoted "actionItems" ++ lit ": [
    {
      " ++ quoted "task" ++ lit ": " ++ quoted "string" ++ lit ",
      " ++ quoted "assignee" ++ lit ": " ++ quoted "string or null" ++ lit ",
      " ++ quoted "priority" ++ lit ": " ++ quoted "high|medium|low" ++ lit ",
      " ++ quoted "deadline" ++ lit ": " ++ quoted "string or null" ++ lit ",
      " ++ quoted "context" ++ lit ": " ++ quoted "string" ++ lit "
    }
  ],
  " ++ quoted "summary" ++ lit ": "
  ++ quoted "One sentence summary of the meeting" ++ lit "
}".

(** Lines 59-99, the argument of the completion call; [temperature] is
    0.3. *)
Definition completion_request (notes : jsstring) : CompletionRequest :=
  {| messages :=
       [ mkMessage (lit "system") SYSTEM_PROMPT;
         mkMessage (lit "user")
           (lit "Extract action items from these meeting notes:"
            ++ [10; 10] ++ notes) ];
     model := lit "llama-3.3-70b-versatile";
     temperature := JNumber 3 (-1);
     max_tokens := 2000;
     response_format := lit "json_object" |}.

(** Line 101, [completion.choices[0]?.message?.content]: [None] when there
    is no first choice, no message, or no content. *)
Definition first_content (completion : ChatCompletion) : option jsstring :=
  match choices completion with
  | [] => None
  | choice :: _ =>
    match choice_message choice with
    | None => None
    | Some content => content
    end
  end.

(** Lines 108-114: [JSON.parse] in its own [try], whose [catch] throws a
    new error. *)
Definition parse_response (responseText : jsstring) : M JSValue :=
  match JSON_parse responseText with
  | Some parsedResponse => ret parsedResponse
  | None => throw (Error "Invalid response format from AI")
  end.

(** Line 119, the template literal [`item-${Date.now()}-${index}`]. *)
Definition item_id (now : Z) (index : nat) : jsstring :=
  lit "item-" ++ Number_toString now ++ lit "-" ++ decimal (N.of_nat index).

(** Lines 118-121, the callback of [map]: [Date.now()] is read in the
    callback, and the new object is [{ id: ..., ...item }]. *)
Definition with_id (item : JSValue) (index : nat) : M JSValue :=
  let* now := Date_now in
  ret (JObject (spread_over (lit "id") (JString (item_id now index))
                  (Some item))).

(** Lines 117-122.  Reading [parsedResponse.actionItems] throws on [null];
    no built-in prototype has an [actionItems] property, so on a number, a
    boolean, a string or an array the read gives [undefined] and the guard
    fails. *)
Definition add_ids (parsedResponse : JSValue) : M JSValue :=
  match parsedResponse with
  | JNull => throw cannot_read_actionItems
  | JObject props =>
    let actionItems := props !! lit "actionItems" in
    if truthy actionItems && Array_isArray actionItems then
      match actionItems with
      | Some (JArray items) =>
        let* items' := Array_map with_id 0 items in
        ret (JObject (<[ lit "actionItems" := JArray items' ]> props))
      | _ => ret parsedResponse
      end
    else ret parsedResponse
  | _ => ret parsedResponse
  end.

(** Lines 37-124, the body of the [try]. *)
Definition try_block (req_body : option JSValue) : M Response :=
  let* notes := destructure_notes req_body in
  if negb (truthy notes) || negb (typeof_string notes) then
    res_json INVALID_INPUT
  else
    let notes := string_of notes in
    if String_length (trim notes) <? 10 then res_json TOO_SHORT
    else if 50000 <? String_length notes then res_json TOO_LONG
    else
      let* completion :=
        groq_chat_completions_create (completion_request notes) in
      match first_content completion with
      | None => throw (Error "No response from AI")
      | Some responseText =>
        if String_length responseText =? 0 then
          throw (Error "No response from AI")
        else
          let* parsedResponse := parse_response responseText in
          let* parsedResponse := add_ids parsedResponse in
          res_json (mkResponse 200 parsedResponse)
      end.

(** [error.message?.includes(text)]. *)
Definition message_includes (error : JSError) (text : string) : bool :=
  match message error with
  | Some msg => includes msg (lit text)
  | None => false
  end.

(** Lines 126-145, the [catch] block. *)
Definition catch_block (error : JSError) : M Response :=
  if message_includes error "API key" then res_json API_CONFIGURATION_ERROR
  else if message_includes error "rate limit" then res_json TOO_MANY_REQUESTS
  else res_json FAILED_TO_PROCESS.

Definition extract_action_items (req_body : option JSValue) : M Response :=
  try_catch (try_block req_body) catch_block.

(** ** Reading results *)

(** The own property [k] of a value: the field of an object, [None] for a
    missing field and for a value that is not an object. *)
Definition property (v : JSValue) (k : string) : option JSValue :=
  match v with
  | JObject props => props !! lit k
  | _ => None
  end.

(** The element [with_id] builds at position [index] from the clock
    reading [now]. *)
Definition stamped_item (now : Z) (index : nat) (item : JSValue) : JSValue :=
  JObject (spread_over (lit "id") (JString (item_id now index)) (Some item)).

(** The array [map] builds when the first callback runs at clock tick [t0]
    and index [i0]. *)
Definition stamped (env : Env) (t0 i0 : nat) (items : list JSValue)
  : list JSValue :=
  imap (fun k => stamped_item (clock env (t0 + k)) (i0 + k)) items.

(** The state after [n] more readings of the clock. *)
Definition after_ticks (st : State) (n : nat) : State :=
  mkState (calls st) (ticks st + n).

(** The state after one more completion call. *)
Definition after_call (st : State) (request : CompletionRequest) : State :=
  mkState (calls st ++ [request]) (ticks st).

(** The request passes validation with the string [notes] and the
    completion call made for it in state [st] resolves with the content
    [text]. *)
Definition answered (env : Env) (st : State) (req_body : option JSValue)
    (notes text : jsstring) : Prop :=
  exists props completion,
    req_body = Some (JObject props) /\
    props !! lit "notes" = Some (JString notes) /\
    10 <= String_length (trim notes) /\
    String_length notes <= 50000 /\
    provider env (length (calls st)) (completion_request notes)
      = Fulfilled completion /\
    first_content completion = Some text.

(** The failure's message mentions [text]: it has [text] as a substring. *)
Definition mentions (error : JSError) (text : string) : Prop :=
  exists msg l r, message error = Some msg /\ msg = l ++ lit text ++ r.

(** A value with the [id] of every element of its [actionItems] array
    taken away: what is left when ids are not looked at. *)
Definition drop_id (item : JSValue) : JSValue :=
  match item with
  | JObject fields => JObject (delete (lit "id") fields)
  | _ => item
  end.

Definition without_ids (v : JSValue) : JSValue :=
  match v with
  | JObject props =>
    match props !! lit "actionItems" with
    | Some (JArray items) =>
      JObject (<[ lit "actionItems" := JArray (drop_id <$> items) ]> props)
    | _ => v
    end
  | _ => v
  end.

(** [new] is a new object equal to the object [original] plus an [id]
    field of the form [item-<timestamp>-<index>]. *)
Definition original_plus_id (original new : JSValue) (index : nat) : Prop :=
  exists fields now,
    original = JObject fields /\
    new = JObject (<[ lit "id" := JString (item_id now index) ]> fields).

(** The [id]s of the elements of the [actionItems] array of a result. *)
Definition ids_of (v : JSValue) : list (option JSValue) :=
  match property v "actionItems" with
  | Some (JArray items) => (fun item => property item "id") <$> items
  | _ => []
  end.

(** ** Sample requests, replies and environments *)

Definition body_with (notes : JSValue) : option JSValue :=
  Some (JObject {[ lit "notes" := notes ]}).

Definition sample_notes : jsstring :=
  lit "Alice will send the report by Friday.".

Definition sample_request : option JSValue :=
  body_with (JString sample_notes).

(** A clock that advances by one millisecond at every reading. *)
Definition ticking (n : nat) : Z := (1700000000000 + Z.of_nat n)%Z.

(** A clock that stands still. *)
Definition frozen (t : Z) (n : nat) : Z := t.

(** The room the stack of the sample environments has for nesting. *)
Definition sample_stack : nat := 2000.

(** The provider resolves with one choice whose content is [text]. *)
Definition replying (text : jsstring) : Env :=
  mkEnv ticking
    (fun _ _ => Fulfilled (mkCompletion [mkChoice (Some (Some text))]))
    sample_stack.

Definition replying_at (time : nat -> Z) (text : jsstring) : Env :=
  mkEnv time
    (fun _ _ => Fulfilled (mkCompletion [mkChoice (Some (Some text))]))
    sample_stack.

(** The provider resolves with a completion that has no choice. *)
Definition silent : Env :=
  mkEnv ticking (fun _ _ => Fulfilled (mkCompletion [])) sample_stack.

(** The provider rejects with an error whose message is [msg]. *)
Definition failing (msg : string) : Env :=
  mkEnv ticking (fun _ _ => Rejected (Error msg)) sample_stack.

(** The provider rejects with an error whose message is the string [msg]. *)
Definition failing_with (msg : jsstring) : Env :=
  mkEnv ticking (fun _ _ => Rejected (mkError (Some msg))) sample_stack.

(** The field [name] with the string value [value], as JSON text. *)
Definition field (name value : string) : jsstring :=
  quoted name ++ lit ":" ++ quoted value.

(** [{"summary":"S"}] *)
Definition summary_only : jsstring :=
  lit "{" ++ field "summary" "S" ++ lit "}".

(** [{"actionItems":["ab"]}] *)
Definition string_item : jsstring :=
  lit "{" ++ quoted "actionItems" ++ lit ":[" ++ quoted "ab" ++ lit "]}".

(** [{"actionItems":[{"id":"x","task":"A"},{"id":"x","task":"B"}]}] *)
Definition same_ids : jsstring :=
  lit "{" ++ quoted "actionItems" ++ lit ":[{"
  ++ field "id" "x" ++ lit "," ++ field "task" "A" ++ lit "},{"
  ++ field "id" "x" ++ lit "," ++ field "task" "B" ++ lit "}]}".

(** [{"actionItems":[{"task":"A"},{"task":"B"}],"summary":"S"}] *)
Definition two_items : jsstring :=
  lit "{" ++ quoted "actionItems" ++ lit ":[{"
  ++ field "task" "A" ++ lit "},{" ++ field "task" "B" ++ lit "}],"
  ++ field "summary" "S" ++ lit "}".

(** [{"actionItems":[{"task":"A","priority":"urgent"}],"summary":"S"}] *)
Definition odd_priority : jsstring :=
  lit "{" ++ quoted "actionItems" ++ lit ":[{"
  ++ field "task" "A" ++ lit "," ++ field "priority" "urgent" ++ lit "}],"
  ++ field "summary" "S" ++ lit "}".

(** [n] opening brackets followed by [n] closing brackets: valid JSON for
    [n] above zero. *)
Definition brackets (n : nat) : jsstring := replicate n 91 ++ replicate n 93.

(** The empty array inside [n] arrays: what [JSON.parse] gives for
    [brackets (S n)]. *)
Fixpoint nested (n : nat) : JSValue :=
  match n with
  | O => JArray []
  | S n' => JArray [nested n']
  end.

(** A nesting deeper than the stack of the sample environments has room
    for. *)
Definition deep : nat := N.to_nat 5000.

(** [{"actionItems":[[[...]]]}], whose one item is [brackets deep]. *)
Definition deep_item : jsstring :=
  lit "{" ++ quoted "actionItems" ++ lit ":[" ++ brackets deep ++ lit "]}".

(** Messages like those of the errors the provider's client throws for
    the provider's answers 429 and 401: the status and the JSON text of
    the body. *)
Definition rate_limit_reached : jsstring :=
  lit "429 {" ++ quoted "error" ++ lit ":{"
  ++ field "message" "Rate limit reached for model `llama-3.3-70b-versatile`. Please try again in 7.66s."
  ++ lit "," ++ field "type" "tokens"
  ++ lit "," ++ field "code" "rate_limit_exceeded" ++ lit "}}".

Definition invalid_api_key : jsstring :=
  lit "401 {" ++ quoted "error" ++ lit ":{"
  ++ field "message" "Invalid API Key"
  ++ lit "," ++ field "type" "invalid_request_error"
  ++ lit "," ++ field "code" "invalid_api_key" ++ lit "}}".

(** Values written the way the source writes them. *)
Definition str (s : string) : JSValue := JString (lit s).

Definition prop (name : string) (v : JSValue) : jsstring * JSValue :=
  (lit name, v).

Definition obj (fields : list (jsstring * JSValue)) : JSValue :=
  JObject (list_to_map fields).

(** What the handler answers to [two_items] under the [ticking] clock. *)
Definition two_items_result : JSValue :=
  obj [prop "actionItems"
         (JArray [obj [prop "id" (str "item-1700000000000-0");
                       prop "task" (str "A")];
                  obj [prop "id" (str "item-1700000000001-1");
                       prop "task" (str "B")]]);
       prop "summary" (str "S")].

(** What [JSON.parse] gives for [two_items]. *)
Definition two_items_props : gmap jsstring JSValue :=
  list_to_map
    [prop "actionItems"
       (JArray [obj [prop "task" (str "A")]; obj [prop "task" (str "B")]]);
     prop "summary" (str "S")].

(** What the handler answers to [string_item]. *)
Definition string_item_result : JSValue :=
  obj [prop "actionItems"
         (JArray [obj [prop "0" (str "a"); prop "1" (str "b");
                       prop "id" (str "item-1700000000000-0")]])].

(** What the handler answers to [same_ids]. *)
Definition same_ids_result : JSValue :=
  obj [prop "actionItems"
         (JArray [obj [prop "id" (str "x"); prop "task" (str "A")];
                  obj [prop "id" (str "x"); prop "task" (str "B")]])].

(** What [JSON.parse] gives for [odd_priority], and what lines 117-122
    make of it at the first reading of the [ticking] clock. *)
Definition odd_priority_parsed : JSValue :=
  obj [prop "actionItems"
         (JArray [obj [prop "task" (str "A");
                       prop "priority" (str "urgent")]]);
       prop "summary" (str "S")].

Definition odd_priority_result : JSValue :=
  obj [prop "actionItems"
         (JArray [obj [prop "id" (str "item-1700000000000-0");
                       prop "task" (str "A");
                       prop "priority" (str "urgent")]]);
       prop "summary" (str "S")].

(** The state after the one completion call of a sample run and [n]
    readings of the clock. *)
Definition sample_done (n : nat) : State :=
  mkState [completion_request sample_notes] n.

(** ** The rest of the server: the health check and the routes *)

(** *** [new Date().toISOString()]

    Time values are milliseconds since the epoch, in UTC.  The functions
    below are the ones of ECMAScript (Day, TimeWithinDay, DaysInYear,
    DayFromYear, YearFromTime, InLeapYear, DayWithinYear, MonthFromTime,
    DateFromTime, HourFromTime, MinFromTime, SecFromTime, msFromTime,
    MakeTime, MakeDay, MakeDate), with floor division and a non-negative
    remainder as there. *)

Module JSDate.

#[local] Open Scope Z_scope.

Definition msPerDay : Z := 86400000.

Definition Day (t : Z) : Z := t / msPerDay.

Definition TimeWithinDay (t : Z) : Z := t mod msPerDay.

Definition DaysInYear (y : Z) : Z :=
  if negb (y mod 4 =? 0) then 365
  else if negb (y mod 100 =? 0) then 366
  else if negb (y mod 400 =? 0) then 365
  else 366.

Definition DayFromYear (y : Z) : Z :=
  365 * (y - 1970) + (y - 1969) / 4 - (y - 1901) / 100 + (y - 1601) / 400.

Definition TimeFromYear (y : Z) : Z := msPerDay * DayFromYear y.

(** The largest [y] with [TimeFromYear y <= t]: the mean length of a year
    gives a year that is at most one off, and the two neighbours are
    tried. *)
Definition YearFromTime (t : Z) : Z :=
  let y := 1970 + Day t * 400 / 146097 in
  if DayFromYear (y + 1) <=? Day t then y + 1
  else if DayFromYear y <=? Day t then y
  else y - 1.

Definition InLeapYear (t : Z) : Z :=
  if DaysInYear (YearFromTime t) =? 366 then 1 else 0.

Definition DayWithinYear (t : Z) : Z := Day t - DayFromYear (YearFromTime t).

(** The day of the year on which month [m] (0 to 11) begins. *)
Definition month_start (m leap : Z) : Z :=
  if m =? 0 then 0
  else if m =? 1 then 31
  else if m =? 2 then 59 + leap
  else if m =? 3 then 90 + leap
  else if m =? 4 then 120 + leap
  else if m =? 5 then 151 + leap
  else if m =? 6 then 181 + leap
  else if m =? 7 then 212 + leap
  else if m =? 8 then 243 + leap
  else if m =? 9 then 273 + leap
  else if m =? 10 then 304 + leap
  else 334 + leap.

Definition MonthFromTime (t : Z) : Z :=
  let d := DayWithinYear t in
  let leap := InLeapYear t in
  if d <? 31 then 0
  else if d <? 59 + leap then 1
  else if d <? 90 + leap then 2
  else if d <? 120 + leap then 3
  else if d <? 151 + leap then 4
  else if d <? 181 + leap then 5
  else if d <? 212 + leap then 6
  else if d <? 243 + leap then 7
  else if d <? 273 + leap then 8
  else if d <? 304 + leap then 9
  else if d <? 334 + leap then 10
  else 11.

Definition DateFromTime (t : Z) : Z :=
  DayWithinYear t - month_start (MonthFromTime t) (InLeapYear t) + 1.

Definition HourFromTime (t : Z) : Z := (t / 3600000) mod 24.

Definition MinFromTime (t : Z) : Z := (t / 60000) mod 60.

Definition SecFromTime (t : Z) : Z := (t / 1000) mod 60.

Definition msFromTime (t : Z) : Z := t mod 1000.

Definition MakeTime (hour min sec ms : Z) : Z :=
  hour * 3600000 + min * 60000 + sec * 1000 + ms.

(** [MakeDay] for a month between 0 and 11. *)
Definition MakeDay (year month date : Z) : Z :=
  DayFromYear year
  + month_start month (if DaysInYear year =? 366 then 1 else 0)
  + date - 1.

Definition MakeDate (day time : Z) : Z := day * msPerDay + time.

(** The largest magnitude of a time value: 100,000,000 days. *)
Definition valid_time (t : Z) : Prop :=
  -8640000000000000 <= t <= 8640000000000000.

(** The decimal digits of [n], exactly [width] of them, least significant
    last. *)
Fixpoint digits (width : nat) (n : Z) : jsstring :=
  match width with
  | O => []
  | S width' => digits width' (n / 10) ++ [Z.to_N (48 + n mod 10)]
  end.

(** The year of the ISO format: four digits from 0 to 9999, and otherwise
    a sign and six digits. *)
Definition year_string (y : Z) : jsstring :=
  if (0 <=? y) && (y <=? 9999) then digits 4 y
  else if y <? 0 then lit "-" ++ digits 6 (- y)
  else lit "+" ++ digits 6 y.

(** [Date.prototype.toISOString] on a valid time value:
    [YYYY-MM-DDTHH:mm:ss.sssZ]. *)
Definition toISOString (t : Z) : jsstring :=
  year_string (YearFromTime t)
  ++ lit "-" ++ digits 2 (MonthFromTime t + 1)
  ++ lit "-" ++ digits 2 (DateFromTime t)
  ++ lit "T" ++ digits 2 (HourFromTime t)
  ++ lit ":" ++ digits 2 (MinFromTime t)
  ++ lit ":" ++ digits 2 (SecFromTime t)
  ++ lit "." ++ digits 3 (msFromTime t)
  ++ lit "Z".

End JSDate.

(** *** The routes *)

(** Lines 30-32, the health check: [new Date()] reads the clock. *)
Definition health : M Response :=
  let* now := Date_now in
  res_json (mkResponse 200
              (obj [prop "status" (str "ok");
                    prop "timestamp" (JString (JSDate.toISOString now))])).

(** Lines 149-151, the handler of every request no route answered. *)
Definition NOT_FOUND : Response := error_response 404 "Endpoint not found".

Definition not_found : M Response := res_json NOT_FOUND.

Definition ascii_upper (c : N) : N :=
  if (97 <=? c) && (c <=? 122) then c - 32 else c.

Definition ascii_lower (c : N) : N :=
  if (65 <=? c) && (c <=? 90) then c + 32 else c.

(** Two paths that differ at most in the case of their ASCII letters. *)
Fixpoint same_ignoring_case (a b : jsstring) : bool :=
  match a, b with
  | [], [] => true
  | x :: a', y :: b' => (ascii_upper x =? ascii_upper y)
                        && same_ignoring_case a' b'
  | _, _ => false
  end.

(** Whether the route registered for [pattern] matches the path of the
    request.  With the router's default settings (no case sensitive
    routing, no strict routing) a pattern without parameters matches the
    path that equals it up to the case of letters, with or without one
    trailing slash. *)
Definition route_matches (pattern : string) (path : jsstring) : bool :=
  same_ignoring_case path (lit pattern)
  || same_ignoring_case path (lit pattern ++ lit "/").

(** Whether a route registered with [app.get] or [app.post] handles the
    method of the request: the router compares in lower case, and hands a
    HEAD request to a route that has no HEAD handler as a GET request. *)
Definition handles_method (registered : string) (method : jsstring) : bool :=
  let name := ascii_lower <$> method in
  let name := if bool_decide (name = lit "head") then lit "get" else name in
  bool_decide (name = lit registered).

(** Lines 30, 35 and 149: the three handlers in the order of their
    registration, for a request that the middleware of lines 14-15 has
    passed on with [req.body] as the body parser left it.  (The CORS
    middleware answers OPTIONS requests itself.) *)
Definition routes (method path : jsstring) (req_body : option JSValue)
  : M Response :=
  if handles_method "get" method && route_matches "/health" path then
    health
  else if handles_method "post" method
          && route_matches "/api/extract-action-items" path then
    extract_action_items req_body
  else not_found.

(** ** Words for the statements about the rest of the handler *)

(** The error responses of the handler. *)
Definition FIXED_ERRORS : list Response :=
  [INVALID_INPUT; TOO_SHORT; TOO_LONG;
   API_CONFIGURATION_ERROR; TOO_MANY_REQUESTS; FAILED_TO_PROCESS].

(** A string of white space only. *)
Definition blank (s : jsstring) : Prop :=
  Forall (fun c => is_white_space c = true) s.

(** A string that neither begins nor ends with white space. *)
Definition solid (s : jsstring) : Prop :=
  (forall c, head s = Some c -> is_white_space c = false) /\
  (forall c, last s = Some c -> is_white_space c = false).

(** [{"actionItems":[],"summary":"none"}] *)
Definition no_items : jsstring :=
  lit "{" ++ quoted "actionItems" ++ lit ":[]," ++ field "summary" "none"
  ++ lit "}".

(** The content of the user message of a completion request. *)
Definition user_content (request : CompletionRequest) : option jsstring :=
  content <$> messages request !! 1%nat.

(** ** Facts about the built-ins *)

Section Builtins.

Lemma startsWith_spec (s p : jsstring) :
  startsWith s p = true <-> exists r, s = p ++ r.
Proof.
  revert s. induction p as [|a p IH]; intros s; simpl.
  - split; [intros _; by exists s | by destruct s].
  - destruct s as [|b s].
    + split; [done | intros [r Hr]; discriminate].
    + simpl. rewrite andb_true_iff, N.eqb_eq, IH. split.
      * intros [-> [r ->]]. by exists r.
      * intros [r Hr]. injection Hr as -> ->. split; [done | by exists r].
Qed.

(** [includes] is the substring test. *)
Lemma includes_spec (s p : jsstring) :
  includes s p = true <-> exists l r, s = l ++ p ++ r.
Proof.
  induction s as [|c s IH]; cbn [includes].
  - rewrite orb_false_r, startsWith_spec. split.
    + intros [r Hr]. by exists [], r.
    + intros [l [r Hr]]. destruct l; [by exists r |]. discriminate.
  - rewrite orb_true_iff, startsWith_spec, IH. split.
    + intros [[r Hr] | [l [r Hr]]].
      * by exists [], r.
      * exists (c :: l), r. by rewrite Hr.
    + intros [l [r Hr]]. destruct l as [|c' l].
      * left. by exists r.
      * right. injection Hr as _ Hr. by exists l, r.
Qed.

Lemma uint_units_digit (d : Decimal.uint) (c : N) :
  c ∈ uint_units d -> 48 <= c <= 57.
Proof.
  induction d; simpl; intros H; try (by apply elem_of_nil in H);
    apply elem_of_cons in H as [-> | H]; auto; lia.
Qed.

Lemma uint_units_inj (d d' : Decimal.uint) :
  uint_units d = uint_units d' -> d = d'.
Proof.
  revert d'. induction d; intros d'; destruct d'; simpl; intros H;
    try discriminate; try reflexivity;
    injection H as H; f_equal; by apply IHd.
Qed.

Lemma decimal_inj (n n' : N) : decimal n = decimal n' -> n = n'.
Proof.
  intros H. apply Unsigned.to_uint_inj. by apply uint_units_inj.
Qed.

Lemma decimal_no_minus (n : N) : 45 ∉ decimal n.
Proof. intros H. apply uint_units_digit in H. lia. Qed.

(** A text is cut in one way only at its last occurrence of a
    separator. *)
Lemma split_at_last (x : N) (a a' d d' : jsstring) :
  x ∉ d -> x ∉ d' -> a ++ x :: d = a' ++ x :: d' -> a = a' /\ d = d'.
Proof.
  intros Hd Hd'. revert a'.
  induction a as [|c a IH]; intros [|c' a'] H; simpl in H.
  - injection H as ->. done.
  - injection H as <- ->. exfalso. apply Hd.
    apply elem_of_app. right. apply elem_of_cons. by left.
  - injection H as -> <-. exfalso. apply Hd'.
    apply elem_of_app. right. apply elem_of_cons. by left.
  - injection H as -> H. destruct (IH _ H) as [-> ->]. done.
Qed.

(** Two ids the template builds at different positions differ, whatever
    the two clock readings are. *)
Lemma item_id_index_inj (now now' : Z) (index index' : nat) :
  item_id now index = item_id now' index' -> index = index'.
Proof.
  unfold item_id. intros H. apply app_inv_head in H.
  change (lit "-") with [45] in H. simpl in H.
  apply split_at_last in H as [_ H]; try apply decimal_no_minus.
  apply decimal_inj in H. lia.
Qed.

(** The indexed properties of an array or a string are named by
    numerals: none of them is [id]. *)
Lemma indexed_no_id (l : list JSValue) : indexed l !! lit "id" = None.
Proof.
  unfold indexed. apply not_elem_of_list_to_map_1.
  intros H. apply list_elem_of_fmap in H as ([k v] & Hk & H).
  apply elem_of_lookup_imap in H as (i & x & [= -> ->] & _).
  simpl in Hk. assert (105 ∈ decimal (N.of_nat i)) as Hin
    by (rewrite <- Hk; apply elem_of_cons; by left).
  apply uint_units_digit in Hin. lia.
Qed.

Lemma non_object_no_id (item : JSValue) :
  (forall fields, item <> JObject fields) ->
  own_properties (Some item) !! lit "id" = None.
Proof.
  intros H. destruct item; simpl; try apply lookup_empty;
    try apply indexed_no_id. by destruct (H props).
Qed.

(** Where the item has no [id] of its own the spread adds one. *)
Lemma spread_over_fresh (k : jsstring) (v : JSValue) (item : option JSValue) :
  own_properties item !! k = None ->
  spread_over k v item = <[ k := v ]> (own_properties item).
Proof. intros H. unfold spread_over. by rewrite insert_union_singleton_r. Qed.

Lemma Number_toString_inj (t t' : Z) :
  Number_toString t = Number_toString t' -> t = t'.
Proof.
  unfold Number_toString.
  destruct (t <? 0)%Z eqn:Ht, (t' <? 0)%Z eqn:Ht'; intros H.
  - injection H as H. apply decimal_inj in H.
    apply (f_equal Z.of_N) in H. rewrite !Zabs2N.id_abs in H. lia.
  - exfalso. apply (decimal_no_minus (Z.to_N t')). rewrite <- H.
    apply elem_of_cons. by left.
  - exfalso. apply (decimal_no_minus (Z.to_N t)). rewrite H.
    apply elem_of_cons. by left.
  - apply decimal_inj in H. lia.
Qed.

(** The clock reading can be read back from an id. *)
Lemma item_id_now_inj (now now' : Z) (index index' : nat) :
  item_id now index = item_id now' index' -> now = now'.
Proof.
  unfold item_id. intros H. apply app_inv_head in H.
  change (lit "-") with [45] in H. simpl in H.
  apply split_at_last in H as [H _]; try apply decimal_no_minus.
  by apply Number_toString_inj.
Qed.

(** Without its [id], a stamped element is the own properties of the
    original without theirs: nothing of the clock or the index is left. *)
Lemma drop_id_stamped_item (now : Z) (index : nat) (item : JSValue) :
  drop_id (stamped_item now index item)
  = JObject (delete (lit "id") (own_properties (Some item))).
Proof.
  unfold stamped_item, spread_over, drop_id.
  by rewrite delete_union, delete_singleton_eq, (right_id_L ∅ (∪)).
Qed.

Lemma drop_id_stamped (env : Env) (t0 i0 : nat) (items : list JSValue) :
  drop_id <$> stamped env t0 i0 items
  = (fun item => JObject (delete (lit "id") (own_properties (Some item))))
      <$> items.
Proof.
  unfold stamped. rewrite fmap_imap.
  rewrite <- (imap_const (fun item => JObject _) items).
  apply imap_ext. intros k item _. apply drop_id_stamped_item.
Qed.

Lemma JSON_parse_empty : JSON_parse [] = None.
Proof. reflexivity. Qed.

End Builtins.

(** ** Facts about the handler *)

Section Handler.

Context (env : Env).

Lemma Array_map_with_id (items : list JSValue) (i0 : nat) (st : State) :
  Array_map with_id i0 items env st =
    (Returned (stamped env (ticks st) i0 items),
     after_ticks st (length items)).
Proof.
  revert i0 st. induction items as [|item items IH]; intros i0 st.
  - unfold after_ticks. simpl. rewrite Nat.add_0_r. by destruct st.
  - cbn [Array_map]. unfold bind at 1. unfold with_id at 1.
    unfold bind at 1, Date_now, ret at 1.
    unfold bind at 1. rewrite IH. unfold ret, stamped, after_ticks.
    cbn [imap ticks calls length]. rewrite !Nat.add_0_r.
    f_equal; [f_equal; f_equal | f_equal; lia].
    apply imap_ext. intros k x _. simpl. f_equal; f_equal; lia.
Qed.

Lemma stamped_length (t0 i0 : nat) (items : list JSValue) :
  length (stamped env t0 i0 items) = length items.
Proof. unfold stamped. apply length_imap. Qed.

Lemma stamped_lookup (t0 i0 k : nat) (items : list JSValue) :
  stamped env t0 i0 items !! k =
    stamped_item (clock env (t0 + k)) (i0 + k) <$> items !! k.
Proof. unfold stamped. by rewrite list_lookup_imap. Qed.

(** The three ways through lines 117-122. *)
Lemma add_ids_null (st : State) :
  add_ids JNull env st = (Thrown cannot_read_actionItems, st).
Proof. reflexivity. Qed.

Lemma add_ids_array (props : gmap jsstring JSValue) (items : list JSValue)
    (st : State) :
  props !! lit "actionItems" = Some (JArray items) ->
  add_ids (JObject props) env st =
    (Returned (JObject (<[ lit "actionItems" :=
                           JArray (stamped env (ticks st) 0 items) ]> props)),
     after_ticks st (length items)).
Proof.
  intros H. unfold add_ids. rewrite H. cbn [truthy Array_isArray andb].
  unfold bind. rewrite Array_map_with_id. reflexivity.
Qed.

Lemma add_ids_other (v : JSValue) (st : State) :
  v <> JNull ->
  Array_isArray (property v "actionItems") = false ->
  add_ids v env st = (Returned v, st).
Proof.
  intros Hnull Harr. destruct v; try done. unfold add_ids.
  simpl in Harr. rewrite Harr, andb_false_r. reflexivity.
Qed.

End Handler.

(** ** Facts about serialization *)

Section Serialization.

(** A value that is neither an array nor an object is serialized without
    a nested call. *)
Lemma serializes_primitive (stack : nat) (v : JSValue) :
  (forall elems, v <> JArray elems) ->
  (forall props, v <> JObject props) ->
  serializes stack v = true.
Proof.
  intros Harray Hobject. destruct stack, v; try reflexivity.
  - by destruct (Harray elems).
  - by destruct (Hobject props).
  - by destruct (Harray elems).
  - by destruct (Hobject props).
Qed.

Lemma serializes_array (stack : nat) (elems : list JSValue) :
  serializes (S stack) (JArray elems) = true <->
  forall v, v ∈ elems -> serializes stack v = true.
Proof.
  cbn [serializes]. rewrite forallb_forall. split.
  - intros H v Hin. apply H. by apply list_elem_of_In.
  - intros H v Hin. apply H. by apply list_elem_of_In.
Qed.

Lemma serializes_object (stack : nat) (props : gmap jsstring JSValue) :
  serializes (S stack) (JObject props) = true <->
  forall k v, props !! k = Some v -> serializes stack v = true.
Proof.
  cbn [serializes]. rewrite forallb_forall. split.
  - intros H k v Hk. apply (H (k, v)).
    by apply list_elem_of_In, elem_of_map_to_list.
  - intros H [k v] Hin. apply list_elem_of_In, elem_of_map_to_list in Hin.
    by apply (H k).
Qed.

Lemma serializes_0 (v : JSValue) :
  serializes 0 v = true ->
  (forall elems, v <> JArray elems) /\ (forall props, v <> JObject props).
Proof. destruct v; try discriminate; by split. Qed.

(** More room on the stack never hurts. *)
Lemma serializes_mono (stack stack' : nat) (v : JSValue) :
  (stack <= stack')%nat ->
  serializes stack v = true -> serializes stack' v = true.
Proof.
  revert stack' v. induction stack as [|stack IH]; intros stack' v Hle H.
  - apply serializes_0 in H as [Harray Hobject].
    by apply serializes_primitive.
  - destruct stack' as [|stack']; [lia |].
    destruct v; try reflexivity.
    + apply serializes_array. intros v Hin. apply (IH stack'); [lia |].
      by apply (proj1 (serializes_array stack elems) H).
    + apply serializes_object. intros k v Hk. apply (IH stack'); [lia |].
      by apply (proj1 (serializes_object stack props) H k).
Qed.

(** Two objects that differ in one property serialize alike when the two
    values of that property do. *)
Lemma serializes_insert (stack : nat) (props : gmap jsstring JSValue)
    (k : jsstring) (a b : JSValue) :
  serializes stack a = serializes stack b ->
  serializes (S stack) (JObject (<[ k := a ]> props))
  = serializes (S stack) (JObject (<[ k := b ]> props)).
Proof.
  intros Hab. apply eq_true_iff_eq. rewrite !serializes_object.
  split; intros H k' v Hk'; apply lookup_insert_Some in Hk'.
  - destruct Hk' as [[<- <-] | [Hne Hk']].
    + rewrite <- Hab. apply (H k). apply lookup_insert_eq.
    + apply (H k'). by rewrite lookup_insert_ne.
  - destruct Hk' as [[<- <-] | [Hne Hk']].
    + rewrite Hab. apply (H k). apply lookup_insert_eq.
    + apply (H k'). by rewrite lookup_insert_ne.
Qed.

(** The element [with_id] builds serializes whenever the properties of
    the original element do: the [id] is a string. *)
Lemma serializes_stamped_item (stack : nat) (now : Z) (index : nat)
    (item : JSValue) :
  serializes (S stack) (stamped_item now index item) = true <->
  forall k v, own_properties (Some item) !! k = Some v ->
              serializes stack v = true.
Proof.
  unfold stamped_item, spread_over. rewrite serializes_object. split.
  - intros H k v Hk. apply (H k). by apply lookup_union_Some_l.
  - intros H k v Hk. apply lookup_union_Some_raw in Hk as [Hk | [_ Hk]].
    + by apply (H k).
    + apply lookup_singleton_Some in Hk as [_ <-].
      by apply serializes_primitive.
Qed.

(** Whether the mapped array serializes does not depend on the clock. *)
Lemma serializes_stamped (stack : nat) (env1 env2 : Env) (t1 t2 i0 : nat)
    (items : list JSValue) :
  serializes stack (JArray (stamped env1 t1 i0 items))
  = serializes stack (JArray (stamped env2 t2 i0 items)).
Proof.
  destruct stack as [|stack]; [reflexivity |].
  apply eq_true_iff_eq. rewrite !serializes_array.
  assert (forall envA envB tA tB,
            (forall v, v ∈ stamped envA tA i0 items ->
                       serializes stack v = true) ->
            forall v, v ∈ stamped envB tB i0 items ->
                      serializes stack v = true) as Hside.
  { intros envA envB tA tB H v Hin.
    apply list_elem_of_lookup in Hin as [k Hk].
    rewrite stamped_lookup in Hk.
    destruct (items !! k) as [item|] eqn:Hitem; [| discriminate].
    injection Hk as <-.
    assert (serializes stack
              (stamped_item (clock envA (tA + k)) (i0 + k) item) = true)
      as Hone.
    { apply H. apply list_elem_of_lookup. exists k.
      by rewrite stamped_lookup, Hitem. }
    destruct stack as [|stack']; [discriminate |].
    apply serializes_stamped_item.
    by apply (proj1 (serializes_stamped_item stack' _ _ item) Hone). }
  split; apply Hside.
Qed.

(** [res.json] answers when the body serializes and throws when it does
    not. *)
Lemma res_json_returns (env : Env) (st : State) (response : Response) :
  serializes (S (stack_depth env)) (body response) = true ->
  res_json response env st = (Returned response, st).
Proof. intros H. unfold res_json. by rewrite H. Qed.

Lemma res_json_throws (env : Env) (st : State) (response : Response) :
  serializes (S (stack_depth env)) (body response) = false ->
  res_json response env st
  = (Thrown (Error "Maximum call stack size exceeded"), st).
Proof. intros H. unfold res_json. by rewrite H. Qed.

(** An object whose properties are strings is serialized whatever room
    the stack has: the error responses are always sent. *)
Lemma error_response_serializes (stack : nat) (code : Z) (msg : string) :
  serializes (S stack) (body (error_response code msg)) = true.
Proof.
  apply serializes_object. intros k v Hk.
  apply lookup_singleton_Some in Hk as [_ <-]. by apply serializes_primitive.
Qed.

Lemma res_json_error_response (env : Env) (st : State) (code : Z)
    (msg : string) :
  res_json (error_response code msg) env st
  = (Returned (error_response code msg), st).
Proof. apply res_json_returns, error_response_serializes. Qed.

Lemma res_json_INVALID_INPUT (env : Env) (st : State) :
  res_json INVALID_INPUT env st = (Returned INVALID_INPUT, st).
Proof. apply res_json_error_response. Qed.

Lemma res_json_TOO_SHORT (env : Env) (st : State) :
  res_json TOO_SHORT env st = (Returned TOO_SHORT, st).
Proof. apply res_json_error_response. Qed.

Lemma res_json_TOO_LONG (env : Env) (st : State) :
  res_json TOO_LONG env st = (Returned TOO_LONG, st).
Proof. apply res_json_error_response. Qed.

Lemma res_json_NOT_FOUND (env : Env) (st : State) :
  res_json NOT_FOUND env st = (Returned NOT_FOUND, st).
Proof. apply res_json_error_response. Qed.

(** The error thrown by [res.json] is answered with the generic 500. *)
Lemma stack_exceeded_generic (env : Env) (st : State) :
  catch_block (Error "Maximum call stack size exceeded") env st
  = (Returned FAILED_TO_PROCESS, st).
Proof. apply res_json_error_response. Qed.

End Serialization.

(** ** The paths through the handler *)

Section Paths.

Context (env : Env).

Lemma valid_notes_nonempty (s : jsstring) :
  10 <= String_length (trim s) -> (String_length s =? 0) = false.
Proof.
  destruct s as [|c s]; [vm_compute; intros H; by destruct H |].
  intros _. apply N.eqb_neq. unfold String_length. simpl. lia.
Qed.

(** The [catch] block always answers, with 500 or 429, and makes no
    external call. *)
Lemma catch_block_answers (error : JSError) (st : State) :
  exists resp, catch_block error env st = (Returned resp, st) /\
    (status resp = 500 \/ status resp = 429)%Z.
Proof.
  unfold catch_block.
  destruct (message_includes error "API key");
    [| destruct (message_includes error "rate limit")];
    eexists; (split; [apply res_json_error_response |]); simpl; auto.
Qed.

Lemma catch_block_generic (error : JSError) (st : State) :
  message_includes error "API key" = false ->
  message_includes error "rate limit" = false ->
  catch_block error env st = (Returned FAILED_TO_PROCESS, st).
Proof.
  intros H1 H2. unfold catch_block. rewrite H1, H2.
  apply res_json_error_response.
Qed.

(** The errors thrown by the handler itself and by the engine mention
    neither phrase. *)
Lemma no_response_generic (st : State) :
  catch_block (Error "No response from AI") env st
  = (Returned FAILED_TO_PROCESS, st).
Proof. apply catch_block_generic; vm_compute; reflexivity. Qed.

Lemma invalid_format_generic (st : State) :
  catch_block (Error "Invalid response format from AI") env st
  = (Returned FAILED_TO_PROCESS, st).
Proof. apply catch_block_generic; vm_compute; reflexivity. Qed.

Lemma cannot_read_generic (st : State) :
  catch_block cannot_read_actionItems env st
  = (Returned FAILED_TO_PROCESS, st).
Proof. apply catch_block_generic; vm_compute; reflexivity. Qed.

(** A request that passes validation goes on to the completion call. *)
Lemma passes_validation (props : gmap jsstring JSValue) (s : jsstring)
    (st : State) :
  props !! lit "notes" = Some (JString s) ->
  10 <= String_length (trim s) ->
  String_length s <= 50000 ->
  try_block (Some (JObject props)) env st =
    match provider env (length (calls st)) (completion_request s) with
    | Rejected error => (Thrown error, after_call st (completion_request s))
    | Fulfilled completion =>
      match first_content completion with
      | None => throw (Error "No response from AI")
      | Some responseText =>
        if String_length responseText =? 0 then
          throw (Error "No response from AI")
        else
          let* parsedResponse := parse_response responseText in
          let* parsedResponse := add_ids parsedResponse in
          res_json (mkResponse 200 parsedResponse)
      end env (after_call st (completion_request s))
    end.
Proof.
  intros Hnotes Hshort Hlong.
  unfold try_block, bind at 1, destructure_notes, ret at 1.
  rewrite Hnotes. cbn [truthy typeof_string string_of negb orb].
  rewrite (valid_notes_nonempty s Hshort). cbn [negb orb].
  apply N.ltb_ge in Hshort as ->. apply N.ltb_ge in Hlong as ->.
  unfold bind at 1, groq_chat_completions_create, after_call.
  by destruct (provider env _ _).
Qed.

(** A request that is answered with a text that parses goes on to lines
    117-124 with the parsed value: what lines 117-122 throw goes to the
    [catch] block, and what they return is answered with status 200 when
    it serializes and with the generic 500 when it does not. *)
Lemma answered_run (st : State) (req_body : option JSValue)
    (notes text : jsstring) (v : JSValue) :
  answered env st req_body notes text ->
  JSON_parse text = Some v ->
  extract_action_items req_body env st =
    match add_ids v env (after_call st (completion_request notes)) with
    | (Returned result, st') =>
      (Returned (if serializes (S (stack_depth env)) result
                 then mkResponse 200 result else FAILED_TO_PROCESS), st')
    | (Thrown error, st') => catch_block error env st'
    end.
Proof.
  intros (props & completion & -> & Hnotes & Hshort & Hlong & Hcall & Htext)
    Hparse.
  unfold extract_action_items, try_catch at 1.
  rewrite (passes_validation props notes st Hnotes Hshort Hlong).
  rewrite Hcall, Htext.
  destruct text as [|c text]; [by rewrite JSON_parse_empty in Hparse |].
  change (String_length (c :: text) =? 0) with false. cbv iota.
  unfold bind at 1, parse_response. rewrite Hparse. unfold ret at 1.
  unfold bind.
  destruct (add_ids v env _) as [[result | error] st']; [| reflexivity].
  unfold res_json. cbn [body].
  destruct (serializes _ result); [reflexivity |].
  apply stack_exceeded_generic.
Qed.

Lemma add_ids_calls (v : JSValue) (st st' : State) (o : Outcome JSValue) :
  add_ids v env st = (o, st') -> calls st' = calls st.
Proof.
  destruct v; try (intros [= <- <-]; reflexivity). unfold add_ids.
  destruct (props !! lit "actionItems") as [[| | | |items|]|] eqn:E;
    cbn [truthy Array_isArray andb];
    try (destruct (_ && _)); try (intros [= <- <-]; reflexivity).
  unfold bind. rewrite Array_map_with_id. by intros [= <- <-].
Qed.

(** Notes that are not a string, or the empty string, fail the first
    check. *)
Lemma invalid_notes (props : gmap jsstring JSValue) (st : State) :
  negb (truthy (props !! lit "notes"))
  || negb (typeof_string (props !! lit "notes")) = true ->
  try_block (Some (JObject props)) env st = (Returned INVALID_INPUT, st).
Proof.
  intros H. unfold try_block, bind at 1, destructure_notes, ret at 1.
  rewrite H. apply res_json_error_response.
Qed.

(** Every way out of the [try] block before the completion call. *)
Lemma try_block_outcomes (req_body : option JSValue) (st : State) :
  (exists missing, try_block req_body env st
                   = (Thrown (cannot_destructure missing), st)
                   /\ (missing = "undefined" \/ missing = "null")%string)
  \/ try_block req_body env st = (Returned INVALID_INPUT, st)
  \/ try_block req_body env st = (Returned TOO_SHORT, st)
  \/ try_block req_body env st = (Returned TOO_LONG, st)
  \/ exists props notes,
       req_body = Some (JObject props) /\
       props !! lit "notes" = Some (JString notes) /\
       10 <= String_length (trim notes) /\
       String_length notes <= 50000.
Proof.
  destruct req_body as [[| | | | |props]|];
    try (right; left; apply (res_json_error_response env st));
    try (left; eexists; split; [reflexivity | auto]; fail).
  pose proof (invalid_notes props st) as Hinvalid.
  destruct (props !! lit "notes") as [[| | |s| |]|] eqn:Hnotes;
    try (right; left; apply Hinvalid;
         first [reflexivity | apply orb_true_r]).
  clear Hinvalid.
  assert (try_block (Some (JObject props)) env st =
          (if String_length s =? 0 then res_json INVALID_INPUT
           else if String_length (trim s) <? 10 then res_json TOO_SHORT
           else if 50000 <? String_length s then res_json TOO_LONG
           else res_json INVALID_INPUT) env st
          \/ ((String_length s =? 0) = false /\
              (String_length (trim s) <? 10) = false /\
              (50000 <? String_length s) = false)) as [-> | H].
  { unfold try_block, bind at 1, destructure_notes, ret at 1.
    rewrite Hnotes. cbn [truthy typeof_string string_of negb orb].
    destruct (String_length s =? 0); [by left |].
    destruct (String_length (trim s) <? 10); [by left |].
    destruct (50000 <? String_length s); [by left | by right]. }
  - destruct (String_length s =? 0);
      [right; left; apply res_json_error_response |].
    destruct (String_length (trim s) <? 10);
      [right; right; left; apply res_json_error_response |].
    destruct (50000 <? String_length s);
      [right; right; right; left; apply res_json_error_response |].
    right; left. apply res_json_error_response.
  - destruct H as (_ & Hshort & Hlong).
    right; right; right; right. exists props, s.
    apply N.ltb_ge in Hshort, Hlong. done.
Qed.

Lemma cannot_destructure_generic (missing : string) (st : State) :
  (missing = "undefined" \/ missing = "null")%string ->
  catch_block (cannot_destructure missing) env st
    = (Returned FAILED_TO_PROCESS, st).
Proof.
  intros [-> | ->]; apply catch_block_generic; vm_compute; reflexivity.
Qed.

(** Every way out of the handler once the request has passed validation:
    the provider failed, or gave no text, or gave a text that does not
    parse, or gave a text that parses. *)
Lemma valid_request_outcomes (props : gmap jsstring JSValue)
    (notes : jsstring) (st : State) :
  props !! lit "notes" = Some (JString notes) ->
  10 <= String_length (trim notes) ->
  String_length notes <= 50000 ->
  let st1 := after_call st (completion_request notes) in
  let run := extract_action_items (Some (JObject props)) env st in
  (exists error,
     provider env (length (calls st)) (completion_request notes)
       = Rejected error /\
     run = catch_block error env st1)
  \/ (exists completion,
        provider env (length (calls st)) (completion_request notes)
          = Fulfilled completion /\
        (first_content completion = None \/
         first_content completion = Some []) /\
        run = (Returned FAILED_TO_PROCESS, st1))
  \/ (exists text,
        answered env st (Some (JObject props)) notes text /\
        JSON_parse text = None /\
        run = (Returned FAILED_TO_PROCESS, st1))
  \/ (exists text v,
        answered env st (Some (JObject props)) notes text /\
        JSON_parse text = Some v).
Proof.
  intros Hnotes Hshort Hlong st1 run. subst run.
  unfold extract_action_items, try_catch.
  rewrite (passes_validation props notes st Hnotes Hshort Hlong).
  fold st1.
  destruct (provider env _ _) as [completion | error] eqn:Hcall.
  - destruct (first_content completion) as [[|c text]|] eqn:Htext.
    + right; left. exists completion.
      split; [done |]. split; [by right |]. apply no_response_generic.
    + assert (answered env st (Some (JObject props)) notes (c :: text))
        by (exists props, completion; done).
      change (String_length (c :: text) =? 0) with false. cbv iota.
      unfold bind at 1, parse_response.
      destruct (JSON_parse (c :: text)) as [v|] eqn:Hparse.
      * right; right; right. by exists (c :: text), v.
      * right; right; left. exists (c :: text).
        split; [done |]. split; [done |]. apply invalid_format_generic.
    + right; left. exists completion.
      split; [done |]. split; [by left |]. apply no_response_generic.
  - left. by exists error.
Qed.

(** The handler always answers: nothing is thrown past the [catch]. *)
Lemma extract_action_items_answers (req_body : option JSValue) (st : State) :
  exists resp st', extract_action_items req_body env st = (Returned resp, st').
Proof.
  unfold extract_action_items, try_catch.
  destruct (try_block req_body env st) as [[resp | error] st'].
  - by exists resp, st'.
  - destruct (catch_block_answers error st') as (resp & -> & _).
    by exists resp, st'.
Qed.

End Paths.

(** ** The claims of the specification *)

Section Results.

Context (env : Env).

(** A 200 response comes from one path only: the request passed
    validation, the provider gave a text, the text parsed, lines 117-122
    went through and their result was serialized. *)
Lemma status_200_inv (req_body : option JSValue) (st st' : State)
    (resp : Response) :
  extract_action_items req_body env st = (Returned resp, st') ->
  status resp = 200%Z ->
  exists notes text v,
    answered env st req_body notes text /\
    JSON_parse text = Some v /\
    add_ids v env (after_call st (completion_request notes))
      = (Returned (body resp), st') /\
    serializes (S (stack_depth env)) (body resp) = true.
Proof.
  intros Hrun H200.
  destruct (try_block_outcomes env req_body st)
    as [(missing & Hthrow & Hmissing) | [H | [H | [H | H]]]].
  - unfold extract_action_items, try_catch in Hrun. rewrite Hthrow in Hrun.
    rewrite cannot_destructure_generic in Hrun by done.
    injection Hrun as <- <-. discriminate.
  - unfold extract_action_items, try_catch in Hrun. rewrite H in Hrun.
    injection Hrun as <- <-. discriminate.
  - unfold extract_action_items, try_catch in Hrun. rewrite H in Hrun.
    injection Hrun as <- <-. discriminate.
  - unfold extract_action_items, try_catch in Hrun. rewrite H in Hrun.
    injection Hrun as <- <-. discriminate.
  - destruct H as (props & notes & -> & Hnotes & Hshort & Hlong).
    destruct (valid_request_outcomes env props notes st Hnotes Hshort Hlong)
      as [(error & _ & H) | [(c & _ & _ & H) | [(text & _ & _ & H) | H]]];
      cbv zeta in H.
    + rewrite H in Hrun.
      destruct (catch_block_answers env error
                  (after_call st (completion_request notes)))
        as (resp' & Hcatch & Hstatus).
      rewrite Hcatch in Hrun. injection Hrun as <- <-. lia.
    + rewrite H in Hrun. injection Hrun as <- <-. discriminate.
    + rewrite H in Hrun. injection Hrun as <- <-. discriminate.
    + destruct H as (text & v & Hanswered & Hparse).
      rewrite (answered_run env st _ notes text v Hanswered Hparse) in Hrun.
      destruct (add_ids v env _) as [[v' | error] st''] eqn:Hadd.
      * destruct (serializes _ v') eqn:Hserializes;
          injection Hrun as <- <-; [| discriminate].
        by exists notes, text, v.
      * destruct (catch_block_answers env error st'')
          as (resp' & Hcatch & Hstatus).
        rewrite Hcatch in Hrun. injection Hrun as <- <-. lia.
Qed.

End Results.

(** C1, as stated, fails: the reply [{"summary":"S"}] is answered with
    status 200 and a result that has no [actionItems] field at all. *)
Lemma actionItems_missing_on_200 :
  extract_action_items sample_request (replying summary_only) initial
    = (Returned (mkResponse 200 (obj [prop "summary" (str "S")])), sample_done 0)
  /\ property (obj [prop "summary" (str "S")]) "actionItems" = None
  /\ Array_isArray (property (obj [prop "summary" (str "S")]) "actionItems")
     = false.
Proof. repeat split; vm_compute; reflexivity. Qed.

(** C1, amended: every 200 response comes from a completion text that
    parsed.  When the parsed value has an array [actionItems] field, the
    [actionItems] field of the returned result is an array with one element
    per parsed element, so the empty array when the parsed array is empty.
    When the parsed value has no [actionItems] field or one that is not an
    array, none is synthesized: the returned result is the parsed value, so
    it has whatever [actionItems] the parsed value had. *)
Theorem actionItems_array_kept (env : Env) (st st' : State)
    (req_body : option JSValue) (resp : Response) :
  extract_action_items req_body env st = (Returned resp, st') ->
  status resp = 200%Z ->
  exists notes text parsed,
    answered env st req_body notes text /\
    JSON_parse text = Some parsed /\
    (forall items,
       property parsed "actionItems" = Some (JArray items) ->
       exists items',
         property (body resp) "actionItems" = Some (JArray items') /\
         length items' = length items /\
         (items = [] -> items' = [])) /\
    (Array_isArray (property parsed "actionItems") = false ->
     body resp = parsed /\
     property (body resp) "actionItems" = property parsed "actionItems").
Proof.
  intros Hrun H200.
  destruct (status_200_inv env req_body st st' resp Hrun H200)
    as (notes & text & v & Hanswered & Hparse & Hadd & _).
  exists notes, text, v.
  split; [exact Hanswered |]. split; [exact Hparse |]. split.
  - intros items Hitems. destruct v; try discriminate. simpl in Hitems.
    rewrite (add_ids_array env props items _ Hitems) in Hadd.
    injection Hadd as <- _. eexists. split; [| split].
    + simpl. apply lookup_insert_eq.
    + apply stamped_length.
    + by intros ->.
  - intros Harray.
    assert (v <> JNull) as Hnull by (by intros ->).
    rewrite (add_ids_other env v _ Hnull Harray) in Hadd.
    injection Hadd as <- _. done.
Qed.

Lemma actionItems_array_kept_witness :
  (exists notes text parsed,
     answered (replying two_items) initial sample_request notes text /\
     JSON_parse text = Some parsed /\
     (forall items,
        property parsed "actionItems" = Some (JArray items) ->
        exists items',
          property two_items_result "actionItems" = Some (JArray items') /\
          length items' = length items /\
          (items = [] -> items' = [])) /\
     (Array_isArray (property parsed "actionItems") = false ->
      two_items_result = parsed /\
      property two_items_result "actionItems"
      = property parsed "actionItems"))
  /\ (exists notes text parsed,
        answered (replying summary_only) initial sample_request notes text /\
        JSON_parse text = Some parsed /\
        (forall items,
           property parsed "actionItems" = Some (JArray items) ->
           exists items',
             property (obj [prop "summary" (str "S")]) "actionItems"
             = Some (JArray items') /\
             length items' = length items /\
             (items = [] -> items' = [])) /\
        (Array_isArray (property parsed "actionItems") = false ->
         obj [prop "summary" (str "S")] = parsed /\
         property (obj [prop "summary" (str "S")]) "actionItems"
         = property parsed "actionItems")).
Proof.
  split.
  - apply (actionItems_array_kept (replying two_items) initial (sample_done 2)
             sample_request (mkResponse 200 two_items_result)).
    + vm_compute. reflexivity.
    + reflexivity.
  - apply (actionItems_array_kept (replying summary_only) initial
             (sample_done 0) sample_request
             (mkResponse 200 (obj [prop "summary" (str "S")]))).
    + vm_compute. reflexivity.
    + reflexivity.
Defined.

(** The sample request is answered by [replying text] with [text]. *)
Lemma sample_answered (time : nat -> Z) (text : jsstring) :
  answered (replying_at time text) initial sample_request sample_notes text.
Proof.
  eexists _, _. repeat split; try reflexivity; by apply N.leb_le.
Qed.

(** C2, as stated, fails: the element ["ab"] of [{"actionItems":["ab"]}]
    is replaced by an object with the properties [0], [1] and [id], which
    is not the original element plus an [id] field. *)
Lemma string_item_not_original_plus_id :
  JSON_parse string_item = Some (obj [prop "actionItems" (JArray [str "ab"])])
  /\ extract_action_items sample_request (replying string_item) initial
     = (Returned (mkResponse 200 string_item_result), sample_done 1)
  /\ ~ original_plus_id (str "ab")
         (obj [prop "0" (str "a"); prop "1" (str "b");
               prop "id" (str "item-1700000000000-0")]) 0.
Proof.
  split; [vm_compute; reflexivity |].
  split; [vm_compute; reflexivity |].
  intros (fields & now & H & _). discriminate.
Qed.

(** C2, amended: for every parsed completion object whose [actionItems]
    field is an array, normalization replaces the array by one of the same
    length; an element that is an object with no [id] field of its own is
    replaced by a new object equal to the original plus an [id] field of
    the form [item-<timestamp>-<index>], where the timestamp is the clock
    reading taken for that element and the index is its zero-based
    position, this id being assigned by the normalizer; an element that is
    not an object is replaced by an object that holds its own enumerable
    properties plus that [id]. *)
Theorem ids_injected (env : Env) (st : State)
    (props : gmap jsstring JSValue) (items : list JSValue) :
  props !! lit "actionItems" = Some (JArray items) ->
  exists items',
    add_ids (JObject props) env st
      = (Returned (JObject (<[ lit "actionItems" := JArray items' ]> props)),
         after_ticks st (length items)) /\
    length items' = length items /\
    forall index item,
      items !! index = Some item ->
      exists new,
        items' !! index = Some (JObject new) /\
        let id := JString (item_id (clock env (ticks st + index)) index) in
        (forall fields,
           item = JObject fields -> fields !! lit "id" = None ->
           new = <[ lit "id" := id ]> fields) /\
        ((forall fields, item <> JObject fields) ->
         new = <[ lit "id" := id ]> (own_properties (Some item))).
Proof.
  intros Hitems. exists (stamped env (ticks st) 0 items).
  split; [by apply add_ids_array |]. split; [apply stamped_length |].
  intros index item Hitem. eexists. split.
  - rewrite stamped_lookup, Hitem. reflexivity.
  - cbv zeta. split.
    + intros fields -> Hfresh. by apply spread_over_fresh.
    + intros Hother. apply spread_over_fresh. by apply non_object_no_id.
Qed.

Lemma ids_injected_witness :
  exists items',
    add_ids (JObject two_items_props) (replying two_items) initial
      = (Returned (JObject (<[ lit "actionItems" := JArray items' ]>
                              two_items_props)),
         after_ticks initial 2) /\
    length items' = 2%nat /\
    forall index item,
      [obj [prop "task" (str "A")]; obj [prop "task" (str "B")]] !! index
        = Some item ->
      exists new,
        items' !! index = Some (JObject new) /\
        let id := JString (item_id (ticking (0 + index)) index) in
        (forall fields,
           item = JObject fields -> fields !! lit "id" = None ->
           new = <[ lit "id" := id ]> fields) /\
        ((forall fields, item <> JObject fields) ->
         new = <[ lit "id" := id ]> (own_properties (Some item))).
Proof.
  apply (ids_injected (replying two_items) initial two_items_props
           [obj [prop "task" (str "A")]; obj [prop "task" (str "B")]]).
  reflexivity.
Defined.

(** C3, as stated, fails: the completion text [null] is valid JSON whose
    parsed value has no [actionItems] field, and the request is answered
    with the 500 failed-to-process error. *)
Lemma null_reply_not_passed_through :
  JSON_parse (lit "null") = Some JNull
  /\ property JNull "actionItems" = None
  /\ extract_action_items sample_request (replying (lit "null")) initial
     = (Returned FAILED_TO_PROCESS, sample_done 0)
  /\ status FAILED_TO_PROCESS = 500%Z.
Proof. repeat split; vm_compute; reflexivity. Qed.

(** C3, amended: for every completion text that parses as valid JSON to a
    value other than [null] that has no [actionItems] field or a
    non-array one, lines 117-122 leave the parsed value unchanged, no
    array is synthesized, and the parsed value is what [res.json] is
    called with.  When the value serializes, the answer has status 200 and
    the parsed value as its body; when it is nested too deeply for the
    call stack, [res.json] throws and the answer is the generic 500. *)
Theorem passthrough_without_array (env : Env) (st : State)
    (req_body : option JSValue) (notes text : jsstring) (v : JSValue) :
  answered env st req_body notes text ->
  JSON_parse text = Some v ->
  v <> JNull ->
  Array_isArray (property v "actionItems") = false ->
  let st1 := after_call st (completion_request notes) in
  add_ids v env st1 = (Returned v, st1)
  /\ (serializes (S (stack_depth env)) v = true ->
      extract_action_items req_body env st
      = (Returned (mkResponse 200 v), st1))
  /\ (serializes (S (stack_depth env)) v = false ->
      extract_action_items req_body env st
      = (Returned FAILED_TO_PROCESS, st1)).
Proof.
  intros Hanswered Hparse Hnull Harray st1.
  rewrite (answered_run env st req_body notes text v Hanswered Hparse).
  fold st1. rewrite (add_ids_other env v st1 Hnull Harray).
  split; [reflexivity |]. split; by intros ->.
Qed.

Lemma passthrough_without_array_witness :
  extract_action_items sample_request (replying summary_only) initial
    = (Returned (mkResponse 200 (obj [prop "summary" (str "S")])),
       after_call initial (completion_request sample_notes))
  /\ extract_action_items sample_request (replying (lit "[1,2]")) initial
     = (Returned (mkResponse 200 (JArray [JNumber 1 0; JNumber 2 0])),
        after_call initial (completion_request sample_notes))
  /\ extract_action_items sample_request (replying (brackets deep)) initial
     = (Returned FAILED_TO_PROCESS,
        after_call initial (completion_request sample_notes)).
Proof.
  split; [| split].
  - destruct (passthrough_without_array (replying summary_only) initial
                sample_request sample_notes summary_only
                (obj [prop "summary" (str "S")])) as (_ & H & _).
    + apply sample_answered.
    + vm_compute. reflexivity.
    + discriminate.
    + reflexivity.
    + apply H. vm_compute. reflexivity.
  - destruct (passthrough_without_array (replying (lit "[1,2]")) initial
                sample_request sample_notes (lit "[1,2]")
                (JArray [JNumber 1 0; JNumber 2 0])) as (_ & H & _).
    + apply sample_answered.
    + vm_compute. reflexivity.
    + discriminate.
    + reflexivity.
    + apply H. vm_compute. reflexivity.
  - destruct (passthrough_without_array (replying (brackets deep)) initial
                sample_request sample_notes (brackets deep)
                (nested (pred deep))) as (_ & _ & H).
    + apply sample_answered.
    + vm_compute. reflexivity.
    + discriminate.
    + reflexivity.
    + apply H. vm_compute. reflexivity.
Defined.

(** C10, as stated, fails: [null] is not the only valid JSON text that is
    answered with the generic 500.  The text of 5000 opening and 5000
    closing brackets is valid JSON, its value is not [null], and
    [res.json] cannot serialize a value nested that deeply: the
    [RangeError] it throws at line 124 is caught and answered with the
    generic 500. *)
Lemma deep_reply_answered_500 :
  JSON_parse (brackets deep) = Some (nested (pred deep))
  /\ nested (pred deep) <> JNull
  /\ extract_action_items sample_request (replying (brackets deep)) initial
     = (Returned FAILED_TO_PROCESS, sample_done 0)
  /\ status FAILED_TO_PROCESS = 500%Z.
Proof.
  split; [vm_compute; reflexivity |]. split; [discriminate |].
  split; [vm_compute; reflexivity | reflexivity].
Qed.

(** C10, amended: when the completion text is the JSON literal [null] the
    request is answered with the generic 500 failed-to-process error.
    For every other valid JSON completion text, lines 117-122 return a
    value, which is the parsed value as it is for a bare number, string,
    boolean or array (and for every value without an array [actionItems]),
    and for an object with an array [actionItems] is that object with the
    array replaced; the request is answered with status 200 and that value
    as the body when [res.json] can serialize it, and with the generic 500
    when the value is nested too deeply for the call stack.  A bare
    number, string or boolean is always answered with status 200. *)
Theorem null_or_deep_fails_others_pass (env : Env) (st : State)
    (req_body : option JSValue) (notes text : jsstring) (v : JSValue) :
  answered env st req_body notes text ->
  JSON_parse text = Some v ->
  let st1 := after_call st (completion_request notes) in
  let run := extract_action_items req_body env st in
  (v = JNull -> run = (Returned FAILED_TO_PROCESS, st1))
  /\
  (v <> JNull ->
   exists result st',
     add_ids v env st1 = (Returned result, st') /\
     (serializes (S (stack_depth env)) result = true ->
      run = (Returned (mkResponse 200 result), st')) /\
     (serializes (S (stack_depth env)) result = false ->
      run = (Returned FAILED_TO_PROCESS, st')) /\
     (Array_isArray (property v "actionItems") = false -> result = v) /\
     ((forall props, v <> JObject props) -> result = v) /\
     (forall props items,
        v = JObject props ->
        props !! lit "actionItems" = Some (JArray items) ->
        result = JObject (<[ lit "actionItems" :=
                             JArray (stamped env (ticks st) 0 items) ]>
                            props)))
  /\
  (v <> JNull ->
   (forall elems, v <> JArray elems) ->
   (forall props, v <> JObject props) ->
   run = (Returned (mkResponse 200 v), st1)).
Proof.
  intros Hanswered Hparse st1 run. subst run.
  rewrite (answered_run env st req_body notes text v Hanswered Hparse).
  fold st1. split; [| split].
  - intros ->. rewrite add_ids_null. apply cannot_read_generic.
  - intros Hnull.
    destruct (Array_isArray (property v "actionItems")) eqn:Harray.
    + destruct v; try discriminate. simpl in Harray.
      destruct (props !! lit "actionItems") as [[| | | |items|]|] eqn:Hitems;
        try discriminate.
      rewrite (add_ids_array env props items st1 Hitems).
      eexists _, _. split; [reflexivity |].
      split; [by intros -> |]. split; [by intros -> |].
      split; [discriminate |]. split.
      * intros Hother. by destruct (Hother props).
      * intros props' items' [= <-]. rewrite Hitems. by intros [= <-].
    + rewrite (add_ids_other env v st1 Hnull Harray).
      exists v, st1. split; [reflexivity |].
      split; [by intros -> |]. split; [by intros -> |].
      split; [done |]. split; [done |].
      intros props items -> Hitems. simpl in Harray.
      by rewrite Hitems in Harray.
  - intros Hnull Harray Hobject.
    assert (Array_isArray (property v "actionItems") = false) as Hnone
      by (destruct v; try reflexivity; by destruct (Hobject props)).
    rewrite (add_ids_other env v st1 Hnull Hnone).
    by rewrite (serializes_primitive _ v Harray Hobject).
Qed.

Lemma null_or_deep_fails_others_pass_witness :
  (extract_action_items sample_request (replying (lit "null")) initial
     = (Returned FAILED_TO_PROCESS, sample_done 0))
  /\ (extract_action_items sample_request (replying (lit "12.50")) initial
      = (Returned (mkResponse 200 (JNumber 125 (-1))), sample_done 0))
  /\ (exists result st',
        add_ids (nested (pred deep)) (replying (brackets deep))
          (sample_done 0) = (Returned result, st') /\
        result = nested (pred deep) /\
        extract_action_items sample_request (replying (brackets deep)) initial
        = (Returned FAILED_TO_PROCESS, st')).
Proof.
  split; [| split].
  - destruct (null_or_deep_fails_others_pass (replying (lit "null")) initial
                sample_request sample_notes (lit "null") JNull) as (H & _).
    + apply sample_answered.
    + vm_compute. reflexivity.
    + apply H. reflexivity.
  - destruct (null_or_deep_fails_others_pass (replying (lit "12.50")) initial
                sample_request sample_notes (lit "12.50")
                (JNumber 125 (-1))) as (_ & _ & H).
    + apply sample_answered.
    + vm_compute. reflexivity.
    + apply H; discriminate.
  - destruct (null_or_deep_fails_others_pass (replying (brackets deep))
                initial sample_request sample_notes (brackets deep)
                (nested (pred deep))) as (_ & H & _).
    + apply sample_answered.
    + vm_compute. reflexivity.
    + destruct H as (result & st' & Hadd & _ & Hdeep & _ & Hsame & _);
        [discriminate |].
      exists result, st'. split; [exact Hadd |].
      assert (result = nested (pred deep)) as Hresult
        by (apply Hsame; discriminate).
      split; [exact Hresult |]. apply Hdeep. rewrite Hresult.
      vm_compute. reflexivity.
Defined.

(** ** Validation, classification and the number of calls *)

Lemma message_includes_mentions (error : JSError) (text : string) :
  message_includes error text = true <-> mentions error text.
Proof.
  unfold message_includes, mentions. destruct (message error) as [msg|].
  - rewrite includes_spec. split.
    + intros (l & r & ->). by exists (l ++ lit text ++ r), l, r.
    + intros (msg' & l & r & [= <-] & ->). by exists l, r.
  - split; [done | by intros (msg & l & r & H & _)].
Qed.

Lemma not_mentions (error : JSError) (text : string) :
  ~ mentions error text -> message_includes error text = false.
Proof.
  intros H. destruct (message_includes error text) eqn:E; [| done].
  by apply message_includes_mentions in E.
Qed.

(** A request that passed validation is answered after exactly one
    completion call, with 200, 429 or 500. *)
Lemma valid_request_response (env : Env) (props : gmap jsstring JSValue)
    (notes : jsstring) (st : State) :
  props !! lit "notes" = Some (JString notes) ->
  10 <= String_length (trim notes) ->
  String_length notes <= 50000 ->
  exists resp st',
    extract_action_items (Some (JObject props)) env st = (Returned resp, st')
    /\ calls st' = calls st ++ [completion_request notes]
    /\ (status resp = 200 \/ status resp = 429 \/ status resp = 500)%Z.
Proof.
  intros Hnotes Hshort Hlong.
  destruct (valid_request_outcomes env props notes st Hnotes Hshort Hlong)
    as [(error & _ & H) | [(c & _ & _ & H) | [(text & _ & _ & H) | H]]];
    cbv zeta in H.
  - destruct (catch_block_answers env error
                (after_call st (completion_request notes)))
      as (resp & Hcatch & Hstatus).
    exists resp, (after_call st (completion_request notes)).
    rewrite H, Hcatch. split; [done |]. split; [done | lia].
  - eexists _, _. split; [exact H |]. split; [done | simpl; auto].
  - eexists _, _. split; [exact H |]. split; [done | simpl; auto].
  - destruct H as (text & v & Hanswered & Hparse).
    rewrite (answered_run env st _ notes text v Hanswered Hparse).
    destruct (add_ids v env _) as [[v' | error] st''] eqn:Hadd;
      apply add_ids_calls in Hadd.
    + eexists _, _. split; [reflexivity |]. split; [done |].
      destruct (serializes _ v'); simpl; auto.
    + destruct (catch_block_answers env error st'')
        as (resp & Hcatch & Hstatus).
      exists resp, st''. rewrite Hcatch. split; [done |]. split; [done | lia].
Qed.

(** C4, as stated, fails: the empty string is a string of trimmed length
    0, and it is answered with the invalid-type error, not with the
    too-short error. *)
Lemma empty_notes_invalid_type :
  typeof_string (Some (JString [])) = true
  /\ String_length (trim []) < 10
  /\ extract_action_items (body_with (JString [])) silent initial
     = (Returned INVALID_INPUT, initial)
  /\ INVALID_INPUT <> TOO_SHORT.
Proof.
  repeat split; try (vm_compute; reflexivity).
  intros H. apply (f_equal (fun resp => property (body resp) "error")) in H.
  vm_compute in H. discriminate.
Qed.

(** C4, amended: validation checks the rules in order and the first
    failure wins.  Notes that are not a string (a number, an object,
    [null], an array, or no notes at all) and the empty string get 400 with
    the invalid-type error; a non-empty string of trimmed length below 10
    gets 400 with the too-short error; a string of trimmed length at least
    10 and length above 50,000 gets 400 with the too-long error; a string
    of trimmed length at least 10 (exactly 10 included) and length at most
    50,000 (exactly 50,000 included) passes: the completion call is issued
    with the notes as they are and the answer is not a 400. *)
Theorem validation_in_order (env : Env) (st : State)
    (props : gmap jsstring JSValue) :
  let notes := props !! lit "notes" in
  let run := extract_action_items (Some (JObject props)) env st in
  (typeof_string notes = false -> run = (Returned INVALID_INPUT, st))
  /\ (notes = Some (JString []) -> run = (Returned INVALID_INPUT, st))
  /\ (forall s, notes = Some (JString s) -> s <> [] ->
        String_length (trim s) < 10 ->
        run = (Returned TOO_SHORT, st))
  /\ (forall s, notes = Some (JString s) ->
        10 <= String_length (trim s) -> 50000 < String_length s ->
        run = (Returned TOO_LONG, st))
  /\ (forall s, notes = Some (JString s) ->
        10 <= String_length (trim s) -> String_length s <= 50000 ->
        exists resp st',
          run = (Returned resp, st') /\
          calls st' = calls st ++ [completion_request s] /\
          status resp <> 400%Z)
  /\ status INVALID_INPUT = 400%Z
  /\ status TOO_SHORT = 400%Z
  /\ status TOO_LONG = 400%Z.
Proof.
  intros notes run. subst notes run.
  unfold extract_action_items, try_catch.
  split; [| split; [| split; [| split; [| split]]]]; [| | | | | done].
  - intros H. rewrite invalid_notes; [done |]. rewrite H. apply orb_true_r.
  - intros H. rewrite invalid_notes; [done |]. by rewrite H.
  - intros s Hs Hne Hshort.
    unfold try_block, bind at 1, destructure_notes, ret at 1. rewrite Hs.
    cbn [truthy typeof_string string_of negb orb].
    destruct s as [|c s]; [done |].
    change (String_length (c :: s) =? 0) with false. cbn [negb orb].
    apply N.ltb_lt in Hshort as ->. by rewrite res_json_TOO_SHORT.
  - intros s Hs Hshort Hlong.
    unfold try_block, bind at 1, destructure_notes, ret at 1. rewrite Hs.
    cbn [truthy typeof_string string_of negb orb].
    rewrite (valid_notes_nonempty s Hshort). cbn [negb orb].
    apply N.ltb_ge in Hshort as ->. apply N.ltb_lt in Hlong as ->.
    by rewrite res_json_TOO_LONG.
  - intros s Hs Hshort Hlong.
    destruct (valid_request_response env props s st Hs Hshort Hlong)
      as (resp & st' & Hrun & Hcalls & Hstatus).
    exists resp, st'. unfold extract_action_items, try_catch in Hrun.
    split; [exact Hrun |]. split; [exact Hcalls | lia].
Qed.

Lemma validation_in_order_witness :
  extract_action_items (body_with (JNumber 42 0)) silent initial
    = (Returned INVALID_INPUT, initial)
  /\ extract_action_items (body_with (JString (lit ""))) silent initial
     = (Returned INVALID_INPUT, initial)
  /\ extract_action_items (body_with (str "   too short   ")) silent initial
     = (Returned TOO_SHORT, initial)
  /\ extract_action_items
       (body_with (JString (replicate (N.to_nat 50001) 97))) silent initial
     = (Returned TOO_LONG, initial)
  /\ (exists resp st',
        extract_action_items (body_with (str "  0123456789  ")) silent initial
          = (Returned resp, st') /\
        calls st' = calls initial
                    ++ [completion_request (lit "  0123456789  ")] /\
        status resp <> 400%Z)
  /\ (exists resp st',
        extract_action_items
          (body_with (JString (replicate (N.to_nat 50000) 97))) silent initial
          = (Returned resp, st') /\
        calls st' = calls initial
                    ++ [completion_request (replicate (N.to_nat 50000) 97)] /\
        status resp <> 400%Z).
Proof.
  split; [| split; [| split; [| split; [| split]]]].
  - destruct (validation_in_order silent initial
                {[ lit "notes" := JNumber 42 0 ]}) as (H & _).
    apply H. reflexivity.
  - destruct (validation_in_order silent initial
                {[ lit "notes" := JString [] ]}) as (_ & H & _).
    apply H. reflexivity.
  - destruct (validation_in_order silent initial
                {[ lit "notes" := str "   too short   " ]})
      as (_ & _ & H & _).
    apply (H (lit "   too short   "));
      [reflexivity | discriminate | by apply N.ltb_lt].
  - destruct (validation_in_order silent initial
                {[ lit "notes" := JString (replicate (N.to_nat 50001) 97) ]})
      as (_ & _ & _ & H & _).
    apply (H (replicate (N.to_nat 50001) 97));
      [reflexivity | apply N.leb_le; by vm_compute
       | apply N.ltb_lt; by vm_compute].
  - destruct (validation_in_order silent initial
                {[ lit "notes" := str "  0123456789  " ]})
      as (_ & _ & _ & _ & H & _).
    apply (H (lit "  0123456789  "));
      [reflexivity | by apply N.leb_le | by apply N.leb_le].
  - destruct (validation_in_order silent initial
                {[ lit "notes" := JString (replicate (N.to_nat 50000) 97) ]})
      as (_ & _ & _ & _ & H & _).
    apply (H (replicate (N.to_nat 50000) 97));
      [reflexivity | apply N.leb_le; by vm_compute
       | apply N.leb_le; by vm_compute].
Defined.

(** C5, at the failing input.  The provider answers 429 and the message
    of its client's error begins with the status and goes on with the
    body, whose message reads [Rate limit reached for model ...]:
    the failure mentions rate limiting, as its text in lower case shows,
    but its message does not contain [rate limit] in the letters of line
    136, and the request is answered with the generic 500 and not with
    429.  In the same way the message [Invalid API Key] of the provider's
    401 does not contain [API key] in the letters of line 130, and the
    request is answered with the failed-to-process body and not with the
    API-configuration-error body. *)
Theorem provider_messages_answered_500 :
  includes (ascii_lower <$> rate_limit_reached) (lit "rate limit") = true
  /\ message_includes (mkError (Some rate_limit_reached)) "rate limit" = false
  /\ extract_action_items sample_request (failing_with rate_limit_reached)
       initial
     = (Returned FAILED_TO_PROCESS, sample_done 0)
  /\ status FAILED_TO_PROCESS = 500%Z
  /\ status TOO_MANY_REQUESTS = 429%Z
  /\ includes (ascii_lower <$> invalid_api_key) (lit "api key") = true
  /\ message_includes (mkError (Some invalid_api_key)) "API key" = false
  /\ extract_action_items sample_request (failing_with invalid_api_key)
       initial
     = (Returned FAILED_TO_PROCESS, sample_done 0)
  /\ property (body FAILED_TO_PROCESS) "error"
     <> property (body API_CONFIGURATION_ERROR) "error".
Proof.
  repeat (split; [vm_compute; reflexivity |]).
  vm_compute. discriminate.
Qed.

(** X15: the [catch] block looks for two phrases in the failure's message,
    letter for letter and in priority order.  A message that contains
    [API key] gives status 500 with the API-configuration-error body;
    otherwise a message that contains [rate limit] gives status 429 with
    the retry-later body; every other failure gives status 500 with the
    failed-to-process body, and that is the case of an empty completion
    response and of malformed JSON, and of a provider failure whose
    message contains neither phrase. *)
Theorem error_classification (env : Env) (st : State) :
  (forall error,
     mentions error "API key" ->
     catch_block error env st = (Returned API_CONFIGURATION_ERROR, st))
  /\ (forall error,
        ~ mentions error "API key" -> mentions error "rate limit" ->
        catch_block error env st = (Returned TOO_MANY_REQUESTS, st))
  /\ (forall error,
        ~ mentions error "API key" -> ~ mentions error "rate limit" ->
        catch_block error env st = (Returned FAILED_TO_PROCESS, st))
  /\ (status API_CONFIGURATION_ERROR = 500
      /\ status TOO_MANY_REQUESTS = 429
      /\ status FAILED_TO_PROCESS = 500)%Z
  /\ (forall props notes,
        props !! lit "notes" = Some (JString notes) ->
        10 <= String_length (trim notes) ->
        String_length notes <= 50000 ->
        let st1 := after_call st (completion_request notes) in
        let run := extract_action_items (Some (JObject props)) env st in
        let reply :=
          provider env (length (calls st)) (completion_request notes) in
        (forall error, reply = Rejected error ->
                       run = catch_block error env st1)
        /\ (forall completion,
              reply = Fulfilled completion ->
              first_content completion = None
              \/ first_content completion = Some [] ->
              run = (Returned FAILED_TO_PROCESS, st1))
        /\ (forall completion text,
              reply = Fulfilled completion ->
              first_content completion = Some text ->
              JSON_parse text = None ->
              run = (Returned FAILED_TO_PROCESS, st1))).
Proof.
  split; [| split; [| split; [| split]]].
  - intros error H. apply message_includes_mentions in H.
    unfold catch_block. rewrite H. apply res_json_error_response.
  - intros error H1 H2. apply not_mentions in H1.
    apply message_includes_mentions in H2.
    unfold catch_block. rewrite H1, H2. apply res_json_error_response.
  - intros error H1 H2. apply catch_block_generic; by apply not_mentions.
  - done.
  - intros props notes Hnotes Hshort Hlong st1 run reply. subst run reply.
    unfold extract_action_items, try_catch.
    rewrite (passes_validation env props notes st Hnotes Hshort Hlong).
    fold st1. split; [| split].
    + by intros error ->.
    + intros completion -> [-> | ->]; apply no_response_generic.
    + intros completion text -> -> Hparse.
      destruct text as [|c text]; [apply no_response_generic |].
      change (String_length (c :: text) =? 0) with false. cbv iota.
      unfold bind at 1, parse_response. rewrite Hparse.
      apply invalid_format_generic.
Qed.

Lemma error_classification_witness :
  extract_action_items sample_request (failing "Invalid API key") initial
    = (Returned API_CONFIGURATION_ERROR, sample_done 0)
  /\ extract_action_items sample_request
       (failing "429: rate limit reached") initial
     = (Returned TOO_MANY_REQUESTS, sample_done 0)
  /\ extract_action_items sample_request (failing "socket hang up") initial
     = (Returned FAILED_TO_PROCESS, sample_done 0)
  /\ extract_action_items sample_request silent initial
     = (Returned FAILED_TO_PROCESS, sample_done 0)
  /\ extract_action_items sample_request
       (replying (lit "Sure, here's the list: ...")) initial
     = (Returned FAILED_TO_PROCESS, sample_done 0).
Proof.
  assert (sample_request
          = Some (JObject {[ lit "notes" := JString sample_notes ]})) as Hreq
    by reflexivity.
  assert (({[ lit "notes" := JString sample_notes ]}
             : gmap jsstring JSValue) !! lit "notes"
          = Some (JString sample_notes)) as Hnotes by reflexivity.
  assert (10 <= String_length (trim sample_notes)) as Hshort
    by (by apply N.leb_le).
  assert (String_length sample_notes <= 50000) as Hlong
    by (by apply N.leb_le).
  split; [| split; [| split; [| split]]].
  - destruct (error_classification (failing "Invalid API key") initial)
      as (_ & _ & _ & _ & Hrun).
    destruct (error_classification (failing "Invalid API key")
                (sample_done 0)) as (Hkey & _).
    destruct (Hrun _ _ Hnotes Hshort Hlong) as (Hrejected & _).
    rewrite Hreq, (Hrejected (Error "Invalid API key") eq_refl).
    apply Hkey. by exists (lit "Invalid API key"), (lit "Invalid "), [].
  - destruct (error_classification (failing "429: rate limit reached")
                initial) as (_ & _ & _ & _ & Hrun).
    destruct (error_classification (failing "429: rate limit reached")
                (sample_done 0)) as (_ & Hrate & _).
    destruct (Hrun _ _ Hnotes Hshort Hlong) as (Hrejected & _).
    rewrite Hreq, (Hrejected (Error "429: rate limit reached") eq_refl).
    apply Hrate.
    + intros H. apply message_includes_mentions in H. discriminate.
    + by exists (lit "429: rate limit reached"), (lit "429: "),
        (lit " reached").
  - destruct (error_classification (failing "socket hang up") initial)
      as (_ & _ & _ & _ & Hrun).
    destruct (error_classification (failing "socket hang up")
                (sample_done 0)) as (_ & _ & Hother & _).
    destruct (Hrun _ _ Hnotes Hshort Hlong) as (Hrejected & _).
    rewrite Hreq, (Hrejected (Error "socket hang up") eq_refl).
    apply Hother; intros H; apply message_includes_mentions in H;
      discriminate.
  - destruct (error_classification silent initial) as (_ & _ & _ & _ & Hrun).
    destruct (Hrun _ _ Hnotes Hshort Hlong) as (_ & Hempty & _).
    rewrite Hreq. apply (Hempty (mkCompletion [])); [reflexivity | by left].
  - destruct (error_classification
                (replying (lit "Sure, here's the list: ...")) initial)
      as (_ & _ & _ & _ & Hrun).
    destruct (Hrun _ _ Hnotes Hshort Hlong) as (_ & _ & Hparse).
    rewrite Hreq. by eapply Hparse.
Defined.

(** C9: every request is answered, and at most one completion call is
    issued for it; a call is issued only for a request that passed
    validation, so a request that fails validation is answered with its
    400 before any external call: no completion call and no reading of the
    clock. *)
Theorem at_most_one_call (env : Env) (st : State)
    (req_body : option JSValue) :
  exists resp st',
    extract_action_items req_body env st = (Returned resp, st') /\
    (st' = st \/
     exists props notes,
       req_body = Some (JObject props) /\
       props !! lit "notes" = Some (JString notes) /\
       10 <= String_length (trim notes) /\
       String_length notes <= 50000 /\
       calls st' = calls st ++ [completion_request notes]) /\
    (length (calls st') <= length (calls st) + 1)%nat /\
    (status resp = 400%Z -> st' = st).
Proof.
  destruct (try_block_outcomes env req_body st)
    as [(missing & Hthrow & Hmissing) | [H | [H | [H | H]]]].
  - exists FAILED_TO_PROCESS, st. unfold extract_action_items, try_catch.
    rewrite Hthrow, cannot_destructure_generic by done.
    repeat split; [by left | lia].
  - exists INVALID_INPUT, st. unfold extract_action_items, try_catch.
    rewrite H. repeat split; [by left | lia].
  - exists TOO_SHORT, st. unfold extract_action_items, try_catch.
    rewrite H. repeat split; [by left | lia].
  - exists TOO_LONG, st. unfold extract_action_items, try_catch.
    rewrite H. repeat split; [by left | lia].
  - destruct H as (props & notes & -> & Hnotes & Hshort & Hlong).
    destruct (valid_request_response env props notes st Hnotes Hshort Hlong)
      as (resp & st' & Hrun & Hcalls & Hstatus).
    exists resp, st'. split; [exact Hrun |]. split; [| split].
    + right. by exists props, notes.
    + rewrite Hcalls, length_app. simpl. lia.
    + intros H400. lia.
Qed.

Lemma at_most_one_call_witness :
  (exists resp st',
     extract_action_items (body_with (str "short")) (replying two_items)
       initial = (Returned resp, st') /\
     (status resp = 400%Z -> st' = initial))
  /\ (exists resp st',
        extract_action_items sample_request (replying two_items) initial
          = (Returned resp, st') /\
        (length (calls st') <= 1)%nat).
Proof.
  split.
  - destruct (at_most_one_call (replying two_items) initial
                (body_with (str "short")))
      as (resp & st' & Hrun & _ & _ & H400).
    exists resp, st'. split; [exact Hrun | exact H400].
  - destruct (at_most_one_call (replying two_items) initial sample_request)
      as (resp & st' & Hrun & _ & Hlen & _).
    exists resp, st'. split; [exact Hrun | exact Hlen].
Defined.

(** ** Ids *)

(** What the code does guarantee: among elements none of which has an
    [id] of its own, the ids given at two different positions differ,
    whatever the clock reads. *)
Lemma injected_ids_distinct (env : Env) (t0 : nat) (items : list JSValue)
    (i j : nat) (a b : JSValue) :
  (forall k item, items !! k = Some item ->
                  own_properties (Some item) !! lit "id" = None) ->
  i <> j ->
  stamped env t0 0 items !! i = Some a ->
  stamped env t0 0 items !! j = Some b ->
  property a "id" <> property b "id".
Proof.
  intros Hfresh Hij Ha Hb. rewrite stamped_lookup in Ha, Hb.
  destruct (items !! i) as [x|] eqn:Hx; [| discriminate].
  destruct (items !! j) as [y|] eqn:Hy; [| discriminate].
  injection Ha as <-. injection Hb as <-. unfold stamped_item, property.
  rewrite !spread_over_fresh by eauto. rewrite !lookup_insert_eq.
  intros H. apply Hij.
  apply (item_id_index_inj (clock env (t0 + i)) (clock env (t0 + j))).
  congruence.
Qed.

(** C6, at the failing input: the reply
    [{"actionItems":[{"id":"x","task":"A"},{"id":"x","task":"B"}]}] is
    answered with two items that both have the id [x], the one the model
    wrote, because the spread at line 120 overwrites the id of line 119. *)
Theorem model_ids_collide :
  extract_action_items sample_request (replying same_ids) initial
    = (Returned (mkResponse 200 same_ids_result), sample_done 2)
  /\ ids_of same_ids_result = [Some (str "x"); Some (str "x")].
Proof. split; vm_compute; reflexivity. Qed.

(** C7, as stated, fails: the clock is read in the callback, once per
    item, and when it advances between two items their ids carry
    different timestamps: no single timestamp gives both ids. *)
Lemma timestamp_read_per_item :
  extract_action_items sample_request (replying two_items) initial
    = (Returned (mkResponse 200 two_items_result), sample_done 2)
  /\ ids_of two_items_result
     = [Some (JString (item_id 1700000000000 0));
        Some (JString (item_id 1700000000001 1))]
  /\ ~ exists t,
         ids_of two_items_result
         = [Some (JString (item_id t 0)); Some (JString (item_id t 1))].
Proof.
  split; [vm_compute; reflexivity |]. split; [vm_compute; reflexivity |].
  intros [t H].
  change (ids_of two_items_result)
    with [Some (JString (item_id 1700000000000 0));
          Some (JString (item_id 1700000000001 1))] in H.
  assert (item_id 1700000000000 0 = item_id t 0) as H0 by congruence.
  assert (item_id 1700000000001 1 = item_id t 1) as H1 by congruence.
  apply item_id_now_inj in H0, H1. lia.
Qed.

(** C7, amended: the timestamp in an injected id is the clock reading
    taken when that element is mapped, one reading per element.  Two
    normalizations of the same completion text on the same server, so
    with the same room on the call stack, yield identical results, and so
    identical ids, under clocks that give the same readings; under clocks
    that give different readings they yield results that differ only in
    ids: the status, the order and number of the elements and all other
    content are identical.  For a parsed object with an array
    [actionItems], both answers are the generic 500 when the result is
    nested too deeply to be serialized, and otherwise both have status 200
    and the object with the array mapped under their clock. *)
Theorem results_differ_only_in_ids (env1 env2 : Env) (st1 st2 : State)
    (req_body : option JSValue) (notes text : jsstring) (v : JSValue) :
  answered env1 st1 req_body notes text ->
  answered env2 st2 req_body notes text ->
  JSON_parse text = Some v ->
  stack_depth env1 = stack_depth env2 ->
  exists r1 st1' r2 st2',
    extract_action_items req_body env1 st1 = (Returned r1, st1') /\
    extract_action_items req_body env2 st2 = (Returned r2, st2') /\
    status r1 = status r2 /\
    without_ids (body r1) = without_ids (body r2) /\
    ((forall k, clock env1 (ticks st1 + k) = clock env2 (ticks st2 + k)) ->
     r1 = r2) /\
    (forall props items,
       v = JObject props ->
       props !! lit "actionItems" = Some (JArray items) ->
       (status r1 = 200%Z ->
        body r1 = JObject (<[ lit "actionItems" :=
                              JArray (stamped env1 (ticks st1) 0 items) ]>
                             props) /\
        body r2 = JObject (<[ lit "actionItems" :=
                              JArray (stamped env2 (ticks st2) 0 items) ]>
                             props)) /\
       (status r1 <> 200%Z ->
        r1 = FAILED_TO_PROCESS /\ r2 = FAILED_TO_PROCESS)).
Proof.
  intros H1 H2 Hparse Hstack.
  rewrite (answered_run env1 st1 req_body notes text v H1 Hparse).
  rewrite (answered_run env2 st2 req_body notes text v H2 Hparse).
  assert (v = JNull \/ v <> JNull) as [-> | Hnull]
    by (destruct v; auto; right; discriminate).
  { rewrite !add_ids_null, !cannot_read_generic.
    eexists _, _, _, _. split; [reflexivity |]. split; [reflexivity |].
    split; [reflexivity |]. split; [reflexivity |]. split; [done |].
    discriminate. }
  destruct (Array_isArray (property v "actionItems")) eqn:Harray.
  - destruct v; try discriminate. simpl in Harray.
    destruct (props !! lit "actionItems") as [[| | | |items|]|] eqn:Hitems;
      try discriminate.
    rewrite !(add_ids_array _ props items _ Hitems). cbn [after_call ticks].
    rewrite Hstack.
    rewrite (serializes_insert (stack_depth env2) props (lit "actionItems")
               (JArray (stamped env1 (ticks st1) 0 items))
               (JArray (stamped env2 (ticks st2) 0 items)))
      by apply serializes_stamped.
    destruct (serializes _ _).
    + eexists _, _, _, _. split; [reflexivity |]. split; [reflexivity |].
      split; [reflexivity |]. split; [| split].
      * cbn [body without_ids]. rewrite !lookup_insert_eq, !insert_insert_eq.
        by rewrite !drop_id_stamped.
      * intros Hclock. do 4 f_equal. unfold stamped. apply imap_ext.
        intros k item _. simpl. by rewrite Hclock.
      * intros props' items' [= <-]. rewrite Hitems. intros [= <-].
        split; [done |]. intros Hstatus. by destruct Hstatus.
    + eexists _, _, _, _. split; [reflexivity |]. split; [reflexivity |].
      split; [reflexivity |]. split; [reflexivity |]. split; [done |].
      intros props' items' _ _. split; [discriminate | done].
  - rewrite !(add_ids_other _ v _ Hnull Harray). rewrite Hstack.
    eexists _, _, _, _. split; [reflexivity |]. split; [reflexivity |].
    split; [reflexivity |]. split; [reflexivity |]. split; [done |].
    intros props items -> Hitems. simpl in Harray.
    by rewrite Hitems in Harray.
Qed.

Lemma results_differ_only_in_ids_witness :
  exists r1 st1' r2 st2',
    extract_action_items sample_request (replying_at (frozen 5) two_items)
      initial = (Returned r1, st1') /\
    extract_action_items sample_request (replying two_items) initial
      = (Returned r2, st2') /\
    status r1 = status r2 /\
    without_ids (body r1) = without_ids (body r2) /\
    ((forall k, frozen 5 (0 + k) = ticking (0 + k)) -> r1 = r2) /\
    (forall props items,
       JObject two_items_props = JObject props ->
       props !! lit "actionItems" = Some (JArray items) ->
       (status r1 = 200%Z ->
        body r1 = JObject (<[ lit "actionItems" :=
                              JArray (stamped
                                        (replying_at (frozen 5) two_items)
                                        0 0 items) ]> props) /\
        body r2 = JObject (<[ lit "actionItems" :=
                              JArray (stamped (replying two_items)
                                        0 0 items) ]> props)) /\
       (status r1 <> 200%Z ->
        r1 = FAILED_TO_PROCESS /\ r2 = FAILED_TO_PROCESS)).
Proof.
  apply (results_differ_only_in_ids (replying_at (frozen 5) two_items)
           (replying two_items) initial initial sample_request
           sample_notes two_items (JObject two_items_props)).
  - apply sample_answered.
  - apply sample_answered.
  - vm_compute. reflexivity.
  - reflexivity.
Defined.

(** C8: normalization changes no field other than [id].  Every top-level
    field of the parsed response other than [actionItems] is returned
    unchanged, and the whole response is when [actionItems] is not an
    array; for every item of an [actionItems] array, every field of the
    original item appears unchanged in the normalized item, whatever its
    value, and the normalized item has no field other than [id] that the
    original item has not. *)
Theorem only_id_changes (env : Env) (st st' : State) (v v' : JSValue) :
  add_ids v env st = (Returned v', st') ->
  (forall k, k <> lit "actionItems" ->
             own_properties (Some v') !! k = own_properties (Some v) !! k)
  /\ (Array_isArray (property v "actionItems") = false -> v' = v)
  /\ (forall items,
        property v "actionItems" = Some (JArray items) ->
        exists items',
          property v' "actionItems" = Some (JArray items') /\
          length items' = length items /\
          forall index item,
            items !! index = Some item ->
            exists new,
              items' !! index = Some (JObject new) /\
              (forall k x, own_properties (Some item) !! k = Some x ->
                           new !! k = Some x) /\
              (forall k, k <> lit "id" ->
                         new !! k = own_properties (Some item) !! k)).
Proof.
  intros Hadd.
  assert (v = JNull \/ v <> JNull) as [-> | Hnull]
    by (destruct v; auto; right; discriminate); [discriminate |].
  destruct (Array_isArray (property v "actionItems")) eqn:Harray.
  - destruct v; try discriminate. simpl in Harray.
    destruct (props !! lit "actionItems") as [[| | | |items|]|] eqn:Hitems;
      try discriminate.
    rewrite (add_ids_array env props items st Hitems) in Hadd.
    injection Hadd as <- <-. split; [| split].
    + intros k Hk. simpl. by rewrite lookup_insert_ne.
    + discriminate.
    + intros items' Hitems'. simpl in Hitems'. rewrite Hitems in Hitems'.
      injection Hitems' as <-. eexists. split; [| split].
      * simpl. apply lookup_insert_eq.
      * apply stamped_length.
      * intros index item Hitem. eexists. split; [| split].
        -- rewrite stamped_lookup, Hitem. reflexivity.
        -- intros k x Hx. unfold spread_over.
           by apply lookup_union_Some_l.
        -- intros k Hk. unfold spread_over. apply lookup_union_l.
           by apply lookup_singleton_ne.
  - rewrite (add_ids_other env v st Hnull Harray) in Hadd.
    injection Hadd as <- <-. split; [done |]. split; [done |].
    intros items Hitems. by rewrite Hitems in Harray.
Qed.

Lemma only_id_changes_witness :
  property odd_priority_result "summary" = property odd_priority_parsed "summary"
  /\ exists items',
       property odd_priority_result "actionItems" = Some (JArray items') /\
       length items' = 1%nat /\
       exists new,
         items' !! 0%nat = Some (JObject new) /\
         new !! lit "priority" = Some (str "urgent") /\
         new !! lit "task" = Some (str "A").
Proof.
  destruct (only_id_changes (replying odd_priority) initial
              (after_ticks initial 1) odd_priority_parsed odd_priority_result)
    as (Htop & _ & Hitems).
  - vm_compute. reflexivity.
  - split.
    + apply (Htop (lit "summary")). discriminate.
    + destruct (Hitems [obj [prop "task" (str "A");
                             prop "priority" (str "urgent")]] eq_refl)
        as (items' & Hfield & Hlen & Hitem).
      exists items'. split; [exact Hfield |]. split; [exact Hlen |].
      destruct (Hitem 0%nat _ eq_refl) as (new & Hnew & Hkept & _).
      exists new. split; [exact Hnew |]. split; by apply Hkept.
Defined.

(** ** More about the handler *)

Section MorePaths.

Context (env : Env).

Ltac in_fixed_errors :=
  unfold FIXED_ERRORS;
  repeat first [apply list_elem_of_here | apply list_elem_of_further].

Lemma catch_block_fixed (error : JSError) (st : State) :
  exists resp, catch_block error env st = (Returned resp, st) /\
    resp ∈ FIXED_ERRORS.
Proof.
  unfold catch_block.
  destruct (message_includes error "API key");
    [| destruct (message_includes error "rate limit")];
    eexists; (split; [apply res_json_error_response |]); in_fixed_errors.
Qed.

Lemma after_ticks_0 (st : State) : after_ticks st 0 = st.
Proof. destruct st. unfold after_ticks. simpl. by rewrite Nat.add_0_r. Qed.

(** Every run of the handler ends in one of three ways: with one of the
    fixed error responses and no reading of the clock; after lines 117-122
    left the parsed value as it is; or after they mapped the [actionItems]
    of the parsed object.  In the last two the answer is a 200 when the
    value serializes and the generic 500 when it does not. *)
Lemma run_cases (req_body : option JSValue) (st : State) :
  (exists resp st',
     extract_action_items req_body env st = (Returned resp, st') /\
     resp ∈ FIXED_ERRORS /\ ticks st' = ticks st)
  \/ (exists notes text v,
        answered env st req_body notes text /\
        JSON_parse text = Some v /\
        Array_isArray (property v "actionItems") = false /\
        extract_action_items req_body env st
          = (Returned (if serializes (S (stack_depth env)) v
                       then mkResponse 200 v else FAILED_TO_PROCESS),
             after_call st (completion_request notes)))
  \/ (exists notes text props items,
        answered env st req_body notes text /\
        JSON_parse text = Some (JObject props) /\
        props !! lit "actionItems" = Some (JArray items) /\
        let result :=
          JObject (<[ lit "actionItems" :=
                      JArray (stamped env (ticks st) 0 items) ]> props) in
        extract_action_items req_body env st
          = (Returned (if serializes (S (stack_depth env)) result
                       then mkResponse 200 result else FAILED_TO_PROCESS),
             after_ticks (after_call st (completion_request notes))
               (length items))).
Proof.
  destruct (try_block_outcomes env req_body st)
    as [(missing & Hthrow & Hmissing) | [H | [H | [H | H]]]];
    try (left; unfold extract_action_items, try_catch; rewrite H;
         eexists _, _; split; [reflexivity |]; split; [in_fixed_errors | done]).
  - left. unfold extract_action_items, try_catch.
    rewrite Hthrow, cannot_destructure_generic by done.
    eexists _, _. split; [reflexivity |]. split; [in_fixed_errors | done].
  - destruct H as (props & notes & -> & Hnotes & Hshort & Hlong).
    destruct (valid_request_outcomes env props notes st Hnotes Hshort Hlong)
      as [(error & _ & H) | [(c & _ & _ & H) | [(text & _ & _ & H) | H]]];
      cbv zeta in H.
    + left. rewrite H.
      destruct (catch_block_fixed error
                  (after_call st (completion_request notes)))
        as (resp & -> & Hin).
      eexists _, _. split; [reflexivity |]. split; [exact Hin | done].
    + left. rewrite H. eexists _, _. split; [reflexivity |].
      split; [in_fixed_errors | done].
    + left. rewrite H. eexists _, _. split; [reflexivity |].
      split; [in_fixed_errors | done].
    + destruct H as (text & v & Hanswered & Hparse).
      rewrite (answered_run env st _ notes text v Hanswered Hparse).
      assert (v = JNull \/ v <> JNull) as [-> | Hnull]
        by (destruct v; auto; right; discriminate).
      { left. rewrite add_ids_null, cannot_read_generic.
        eexists _, _. split; [reflexivity |].
        split; [in_fixed_errors | done]. }
      destruct (Array_isArray (property v "actionItems")) eqn:Harray.
      * right; right. destruct v as [| | | | |vprops]; try discriminate.
        simpl in Harray.
        destruct (vprops !! lit "actionItems") as [[| | | |items|]|]
          eqn:Hitems; try discriminate.
        rewrite (add_ids_array env vprops items _ Hitems).
        by exists notes, text, vprops, items.
      * right; left. rewrite (add_ids_other env v _ Hnull Harray).
        by exists notes, text, v.
Qed.

End MorePaths.

(** ** Facts about [trim] *)

Lemma trimStart_length (s : jsstring) :
  (length (trimStart s) <= length s)%nat.
Proof.
  induction s as [|c s IH]; simpl; [lia |].
  destruct (is_white_space c); simpl; lia.
Qed.

Lemma trim_length (s : jsstring) : String_length (trim s) <= String_length s.
Proof.
  unfold String_length, trim, trimEnd. rewrite length_reverse.
  pose proof (trimStart_length (reverse (trimStart s))) as H1.
  pose proof (trimStart_length s) as H2.
  rewrite length_reverse in H1. lia.
Qed.

Lemma trimStart_blank (l s : jsstring) :
  blank l -> trimStart (l ++ s) = trimStart s.
Proof.
  unfold blank. induction 1 as [|c l Hc _ IH]; simpl; [done |].
  by rewrite Hc.
Qed.

Lemma trimStart_head (s : jsstring) :
  (forall c, head s = Some c -> is_white_space c = false) ->
  trimStart s = s.
Proof.
  destruct s as [|c s]; [done |]. intros H. simpl. by rewrite (H c).
Qed.

Lemma blank_reverse (s : jsstring) : blank s -> blank (reverse s).
Proof. unfold blank. by rewrite Forall_reverse. Qed.

(** [trim] takes away the white space around a string that neither
    begins nor ends with white space, and nothing else. *)
Lemma trim_padded (l core r : jsstring) :
  blank l -> blank r -> solid core -> trim (l ++ core ++ r) = core.
Proof.
  intros Hl Hr [Hhead Hlast]. unfold trim, trimEnd.
  rewrite (trimStart_blank l _ Hl).
  destruct core as [|c core].
  - simpl. rewrite <- (app_nil_r r), (trimStart_blank r [] Hr). reflexivity.
  - rewrite (trimStart_head ((c :: core) ++ r)) by (intros c' [= <-]; eauto).
    rewrite reverse_app, (trimStart_blank _ _ (blank_reverse r Hr)).
    rewrite trimStart_head; [apply reverse_involutive |].
    intros c'. rewrite head_reverse. apply Hlast.
Qed.

(** ** Facts used below *)

Lemma fixed_error_status (resp : Response) :
  resp ∈ FIXED_ERRORS ->
  (status resp = 400 \/ status resp = 429 \/ status resp = 500)%Z
  /\ property (body resp) "actionItems" = None.
Proof.
  unfold FIXED_ERRORS. intros H.
  repeat (apply elem_of_cons in H as [-> | H]); try (by apply elem_of_nil in H);
    (split; [simpl; auto | vm_compute; reflexivity]).
Qed.

Lemma too_short (env : Env) (props : gmap jsstring JSValue) (s : jsstring)
    (st : State) :
  props !! lit "notes" = Some (JString s) ->
  s <> [] ->
  String_length (trim s) < 10 ->
  extract_action_items (Some (JObject props)) env st
    = (Returned TOO_SHORT, st).
Proof.
  intros Hs Hne Hshort. unfold extract_action_items, try_catch.
  unfold try_block, bind at 1, destructure_notes, ret at 1. rewrite Hs.
  cbn [truthy typeof_string string_of negb orb].
  destruct s as [|c s]; [done |].
  change (String_length (c :: s) =? 0) with false. cbn [negb orb].
  apply N.ltb_lt in Hshort as ->. by rewrite res_json_TOO_SHORT.
Qed.

Lemma ids_of_not_array (v : JSValue) :
  Array_isArray (property v "actionItems") = false -> ids_of v = [].
Proof.
  unfold ids_of. by destruct (property v "actionItems") as [[| | | | |]|].
Qed.

Lemma FAILED_TO_PROCESS_fixed : FAILED_TO_PROCESS ∈ FIXED_ERRORS.
Proof.
  unfold FIXED_ERRORS.
  repeat first [apply list_elem_of_here | apply list_elem_of_further].
Qed.

(** An answer taken from a value that may not serialize has status 200 or
    is the generic 500. *)
Lemma answer_status (stack : nat) (v : JSValue) :
  let resp := if serializes stack v then mkResponse 200 v
              else FAILED_TO_PROCESS in
  (status resp = 200%Z /\ serializes stack v = true /\ body resp = v)
  \/ (status resp <> 200%Z /\ serializes stack v = false /\
      resp = FAILED_TO_PROCESS).
Proof.
  cbv zeta. destruct (serializes stack v); [left | right]; by repeat split.
Qed.

(** Lines 117-122 read the clock once for every element of the array
    they map, and the array they build has as many elements. *)
Lemma add_ids_ticks (env : Env) (v : JSValue) (st st' : State)
    (o : Outcome JSValue) :
  add_ids v env st = (o, st') ->
  ticks st' = (ticks st + length (ids_of v))%nat /\
  forall result, o = Returned result ->
                 length (ids_of result) = length (ids_of v).
Proof.
  assert (v = JNull \/ v <> JNull) as [-> | Hnull]
    by (destruct v; auto; right; discriminate).
  { rewrite add_ids_null. intros [= <- <-]. simpl. split; [lia | done]. }
  destruct (Array_isArray (property v "actionItems")) eqn:Harray.
  - destruct v; try discriminate. simpl in Harray.
    destruct (props !! lit "actionItems") as [[| | | |items|]|] eqn:Hitems;
      try discriminate.
    rewrite (add_ids_array env props items st Hitems). intros [= <- <-].
    unfold ids_of. cbn [property after_ticks ticks]. rewrite Hitems.
    rewrite length_fmap. split; [reflexivity |].
    intros result [= <-]. cbn [property]. rewrite lookup_insert_eq.
    by rewrite length_fmap, stamped_length.
  - rewrite (add_ids_other env v st Hnull Harray). intros [= <- <-].
    split; [| by intros result [= <-]].
    rewrite (ids_of_not_array v Harray). simpl. lia.
Qed.

Lemma stamped_item_has_id (now : Z) (index : nat) (item : JSValue) :
  exists fields id,
    stamped_item now index item = JObject fields /\
    fields !! lit "id" = Some id.
Proof.
  unfold stamped_item, spread_over. eexists.
  destruct (own_properties (Some item) !! lit "id") as [id|] eqn:Hid.
  - exists id. split; [reflexivity |]. by apply lookup_union_Some_l.
  - eexists. split; [reflexivity |].
    rewrite lookup_union_r by done. apply lookup_singleton_eq.
Qed.

Lemma handles_get (method : jsstring) :
  ascii_lower <$> method = lit "get" \/ ascii_lower <$> method = lit "head" ->
  handles_method "get" method = true.
Proof. unfold handles_method. cbv zeta. by intros [-> | ->]. Qed.

Lemma handles_post (method : jsstring) :
  handles_method "post" method = true ->
  ascii_lower <$> method = lit "post".
Proof.
  unfold handles_method. cbv zeta.
  destruct (bool_decide (ascii_lower <$> method = lit "head")).
  - intros H. apply bool_decide_eq_true in H. discriminate.
  - intros H. by apply bool_decide_eq_true in H.
Qed.

(** The statuses of the handler's answers. *)
Lemma answer_statuses (env : Env) (st : State) (req_body : option JSValue) :
  exists resp st',
    extract_action_items req_body env st = (Returned resp, st') /\
    (status resp = 200 \/ status resp = 400 \/ status resp = 429
     \/ status resp = 500)%Z.
Proof.
  destruct (run_cases env req_body st)
    as [(resp & st' & Hrun & Hin & _)
       | [(notes & text & v & _ & _ & _ & Hrun)
         | (notes & text & props & items & _ & _ & _ & Hrun)]];
    cbv zeta in Hrun; rewrite Hrun; eexists _, _; (split; [reflexivity |]).
  - destruct (fixed_error_status resp Hin) as [Hstatus _]. tauto.
  - destruct (serializes _ v); simpl; auto.
  - destruct (serializes _ _); simpl; auto.
Qed.

(** The calls of a run of the handler: none, or one, made for notes that
    passed validation. *)
Lemma calls_after_run (env : Env) (st st' : State)
    (req_body : option JSValue) (resp : Response) :
  extract_action_items req_body env st = (Returned resp, st') ->
  calls st' = calls st
  \/ exists props notes,
       req_body = Some (JObject props) /\
       props !! lit "notes" = Some (JString notes) /\
       10 <= String_length (trim notes) /\
       String_length notes <= 50000 /\
       calls st' = calls st ++ [completion_request notes].
Proof.
  intros Hrun.
  destruct (try_block_outcomes env req_body st)
    as [(missing & Hthrow & Hmissing) | [H | [H | [H | H]]]];
    try (unfold extract_action_items, try_catch in Hrun; rewrite H in Hrun;
         injection Hrun as _ <-; by left).
  - unfold extract_action_items, try_catch in Hrun.
    rewrite Hthrow, cannot_destructure_generic in Hrun by done.
    injection Hrun as _ <-. by left.
  - destruct H as (props & notes & -> & Hnotes & Hshort & Hlong).
    destruct (valid_request_response env props notes st Hnotes Hshort Hlong)
      as (resp0 & st0 & Hrun0 & Hcalls0 & _).
    rewrite Hrun0 in Hrun. injection Hrun as _ <-.
    right. by exists props, notes.
Qed.

Lemma health_run (env : Env) (st : State) :
  health env st
  = (Returned
       (mkResponse 200
          (obj [prop "status" (str "ok");
                prop "timestamp"
                  (JString (JSDate.toISOString (clock env (ticks st))))])),
     mkState (calls st) (S (ticks st))).
Proof.
  unfold health, bind, Date_now. apply res_json_returns.
  apply serializes_object. intros k v Hk.
  unfold prop in Hk. cbn [list_to_map foldr uncurry] in Hk.
  apply lookup_insert_Some in Hk as [[_ <-] | [_ Hk]];
    [by apply serializes_primitive |].
  apply lookup_insert_Some in Hk as [[_ <-] | [_ Hk]];
    [by apply serializes_primitive |].
  by rewrite lookup_empty in Hk.
Qed.

(** ** Facts about dates *)

Section Dates.

Import JSDate.
#[local] Open Scope Z_scope.

Lemma DayFromYear_succ (y : Z) :
  DayFromYear (y + 1) = DayFromYear y + DaysInYear y.
Proof.
  unfold DayFromYear, DaysInYear.
  destruct (Z.eqb_spec (y mod 4) 0), (Z.eqb_spec (y mod 100) 0),
    (Z.eqb_spec (y mod 400) 0); cbn [negb];
    Z.to_euclidean_division_equations; lia.
Qed.

(** [YearFromTime t] is the year the day of [t] falls in. *)
Lemma YearFromTime_spec (t : Z) :
  DayFromYear (YearFromTime t) <= Day t < DayFromYear (YearFromTime t + 1).
Proof.
  unfold YearFromTime. cbv zeta.
  set (d := Day t). set (y := 1970 + d * 400 / 146097).
  assert (DayFromYear (y - 1) <= d < DayFromYear (y + 2)) as Hest.
  { subst y. unfold DayFromYear.
    Z.to_euclidean_division_equations. lia. }
  destruct (Z.leb_spec (DayFromYear (y + 1)) d) as [H1 | H1].
  - replace (y + 1 + 1) with (y + 2) by lia. lia.
  - destruct (Z.leb_spec (DayFromYear y) d) as [H2 | H2]; [lia |].
    replace (y - 1 + 1) with y by lia. lia.
Qed.

Lemma DayWithinYear_bounds (t : Z) :
  0 <= DayWithinYear t < 365 + InLeapYear t.
Proof.
  unfold DayWithinYear, InLeapYear.
  pose proof (YearFromTime_spec t) as H.
  rewrite DayFromYear_succ in H.
  assert (DaysInYear (YearFromTime t) = 365 \/
          DaysInYear (YearFromTime t) = 366) as [E | E].
  { unfold DaysInYear.
    destruct (negb _); [auto |]. destruct (negb _); [auto |].
    destruct (negb _); auto. }
  - rewrite E in *. simpl. lia.
  - rewrite E in *. simpl. lia.
Qed.

Lemma InLeapYear_bit (t : Z) : InLeapYear t = 0 \/ InLeapYear t = 1.
Proof. unfold InLeapYear. destruct (_ =? _); auto. Qed.

Lemma MonthFromTime_bounds (t : Z) : 0 <= MonthFromTime t <= 11.
Proof.
  unfold MonthFromTime. cbv zeta.
  repeat (destruct (_ <? _); [lia |]). lia.
Qed.

Lemma DateFromTime_bounds (t : Z) : 1 <= DateFromTime t <= 31.
Proof.
  unfold DateFromTime, MonthFromTime, month_start. cbv zeta.
  pose proof (DayWithinYear_bounds t) as Hd.
  pose proof (InLeapYear_bit t) as Hl.
  remember (DayWithinYear t) as d eqn:Ed. clear Ed.
  remember (InLeapYear t) as l eqn:El. clear El.
  destruct (Z.ltb_spec d 31); [simpl; lia |].
  destruct (Z.ltb_spec d (59 + l)); [simpl; lia |].
  destruct (Z.ltb_spec d (90 + l)); [simpl; lia |].
  destruct (Z.ltb_spec d (120 + l)); [simpl; lia |].
  destruct (Z.ltb_spec d (151 + l)); [simpl; lia |].
  destruct (Z.ltb_spec d (181 + l)); [simpl; lia |].
  destruct (Z.ltb_spec d (212 + l)); [simpl; lia |].
  destruct (Z.ltb_spec d (243 + l)); [simpl; lia |].
  destruct (Z.ltb_spec d (273 + l)); [simpl; lia |].
  destruct (Z.ltb_spec d (304 + l)); [simpl; lia |].
  destruct (Z.ltb_spec d (334 + l)); simpl; lia.
Qed.

Lemma MakeTime_TimeWithinDay (t : Z) :
  MakeTime (HourFromTime t) (MinFromTime t) (SecFromTime t) (msFromTime t)
  = TimeWithinDay t.
Proof.
  unfold MakeTime, HourFromTime, MinFromTime, SecFromTime, msFromTime,
    TimeWithinDay, msPerDay.
  Z.to_euclidean_division_equations. lia.
Qed.

(** The fields of a time value make the time value again. *)
Lemma fields_make_time (t : Z) :
  MakeDate (MakeDay (YearFromTime t) (MonthFromTime t) (DateFromTime t))
    (MakeTime (HourFromTime t) (MinFromTime t) (SecFromTime t)
       (msFromTime t))
  = t.
Proof.
  rewrite MakeTime_TimeWithinDay.
  unfold MakeDate, MakeDay, DateFromTime, DayWithinYear, InLeapYear,
    TimeWithinDay, Day.
  set (m := month_start _ _).
  replace (DayFromYear (YearFromTime t) + m
           + (t / msPerDay - DayFromYear (YearFromTime t) - m + 1) - 1)
    with (t / msPerDay) by lia.
  unfold msPerDay. Z.to_euclidean_division_equations. lia.
Qed.

Lemma time_fields_bounds (t : Z) :
  0 <= HourFromTime t <= 23 /\ 0 <= MinFromTime t <= 59 /\
  0 <= SecFromTime t <= 59 /\ 0 <= msFromTime t <= 999.
Proof.
  unfold HourFromTime, MinFromTime, SecFromTime, msFromTime.
  Z.to_euclidean_division_equations. lia.
Qed.

Lemma YearFromTime_valid (t : Z) :
  valid_time t -> -1000000 < YearFromTime t < 1000000.
Proof.
  unfold valid_time, YearFromTime, Day, msPerDay. cbv zeta. intros H.
  assert (-273791 <= t / 86400000 * 400 / 146097 <= 273790)
    by (Z.to_euclidean_division_equations; lia).
  destruct (_ <=? _); [lia |]. destruct (_ <=? _); lia.
Qed.

Lemma YearFromTime_four_digits (t : Z) :
  0 <= t < 253402300800000 -> 1970 <= YearFromTime t <= 9999.
Proof.
  intros H. pose proof (YearFromTime_spec t) as Hy.
  assert (0 <= Day t < 2932897)
    by (unfold Day, msPerDay; Z.to_euclidean_division_equations; lia).
  assert (forall y, y <= 1969 -> DayFromYear (y + 1) <= 0) as Hlow.
  { intros y Hle. unfold DayFromYear.
    Z.to_euclidean_division_equations. lia. }
  assert (forall y, 10000 <= y -> 2932897 <= DayFromYear y) as Hhigh.
  { intros y Hle. unfold DayFromYear.
    Z.to_euclidean_division_equations. lia. }
  split.
  - destruct (Z.le_gt_cases 1970 (YearFromTime t)) as [| Hlt]; [done |].
    specialize (Hlow (YearFromTime t)). lia.
  - destruct (Z.le_gt_cases (YearFromTime t) 9999) as [| Hgt]; [done |].
    specialize (Hhigh (YearFromTime t)). lia.
Qed.

Lemma length_digits (width : nat) (n : Z) : length (digits width n) = width.
Proof.
  revert n. induction width as [|w IH]; intros n; [done |].
  cbn [digits]. rewrite length_app, IH. simpl. lia.
Qed.

Lemma digits_inj (width : nat) (n n' : Z) :
  0 <= n < 10 ^ Z.of_nat width ->
  0 <= n' < 10 ^ Z.of_nat width ->
  digits width n = digits width n' -> n = n'.
Proof.
  revert n n'. induction width as [|w IH]; intros n n' Hn Hn' H.
  - simpl in Hn, Hn'. lia.
  - cbn [digits] in H.
    apply app_inj_2 in H as [H Hlast]; [| done].
    rewrite Nat2Z.inj_succ, Z.pow_succ_r in Hn, Hn' by lia.
    apply IH in H; [| Z.to_euclidean_division_equations; lia
                     | Z.to_euclidean_division_equations; lia].
    injection Hlast as Hlast. apply Z2N.inj in Hlast;
      Z.to_euclidean_division_equations; lia.
Qed.

(** A field of fixed width can be cut off the front of a text. *)
Lemma digits_app_inj (width : nat) (n n' : Z) (x x' : jsstring) :
  0 <= n < 10 ^ Z.of_nat width ->
  0 <= n' < 10 ^ Z.of_nat width ->
  digits width n ++ x = digits width n' ++ x' -> n = n' /\ x = x'.
Proof.
  intros Hn Hn' H.
  apply app_inj_1 in H as [H ->]; [| by rewrite !length_digits].
  split; [by apply (digits_inj width) | done].
Qed.

Lemma year_string_length (y : Z) :
  length (year_string y) = 4%nat \/ length (year_string y) = 7%nat.
Proof.
  unfold year_string. destruct (_ && _); [left; apply length_digits |].
  right. destruct (_ <? _); by rewrite length_app, length_digits.
Qed.

Lemma year_string_inj (y y' : Z) :
  -1000000 < y < 1000000 -> -1000000 < y' < 1000000 ->
  year_string y = year_string y' -> y = y'.
Proof.
  unfold year_string. intros Hy Hy'.
  change (lit "-") with [45%N]. change (lit "+") with [43%N].
  destruct (Z.leb_spec 0 y), (Z.leb_spec y 9999),
    (Z.leb_spec 0 y'), (Z.leb_spec y' 9999); cbn [andb app];
    repeat match goal with
           | |- context [?a <? 0] => destruct (Z.ltb_spec a 0)
           end;
    try lia; intros Heq;
    try (apply (f_equal length) in Heq; cbn [length] in Heq;
         rewrite !length_digits in Heq; discriminate);
    try discriminate;
    first [ apply (digits_inj 4) in Heq; simpl; lia
          | apply (f_equal (drop 1)) in Heq; cbn [drop] in Heq;
            apply (digits_inj 6) in Heq; simpl; lia ].
Qed.

(** Two valid time values with the same ISO text are the same. *)
Lemma toISOString_inj (t t' : Z) :
  valid_time t -> valid_time t' ->
  toISOString t = toISOString t' -> t = t'.
Proof.
  intros Ht Ht' H.
  pose proof (YearFromTime_valid t Ht) as Hy.
  pose proof (YearFromTime_valid t' Ht') as Hy'.
  pose proof (MonthFromTime_bounds t) as Hm.
  pose proof (MonthFromTime_bounds t') as Hm'.
  pose proof (DateFromTime_bounds t) as Hd.
  pose proof (DateFromTime_bounds t') as Hd'.
  pose proof (time_fields_bounds t) as (Hh & Hmi & Hs & Hms).
  pose proof (time_fields_bounds t') as (Hh' & Hmi' & Hs' & Hms').
  unfold toISOString in H.
  apply app_inj_2 in H as [Hyear H];
    [| by rewrite !length_app, !length_digits].
  apply year_string_inj in Hyear; [| done | done].
  change (lit "-") with [45%N] in H. change (lit "T") with [84%N] in H.
  change (lit ":") with [58%N] in H. change (lit ".") with [46%N] in H.
  cbn [app] in H. apply (f_equal (drop 1)) in H. cbn [drop] in H.
  apply (digits_app_inj 2) in H as [Hmonth H]; [| simpl; lia | simpl; lia].
  apply (f_equal (drop 1)) in H. cbn [drop] in H.
  apply (digits_app_inj 2) in H as [Hdate H]; [| simpl; lia | simpl; lia].
  apply (f_equal (drop 1)) in H. cbn [drop] in H.
  apply (digits_app_inj 2) in H as [Hhour H]; [| simpl; lia | simpl; lia].
  apply (f_equal (drop 1)) in H. cbn [drop] in H.
  apply (digits_app_inj 2) in H as [Hmin H]; [| simpl; lia | simpl; lia].
  apply (f_equal (drop 1)) in H. cbn [drop] in H.
  apply (digits_app_inj 2) in H as [Hsec H]; [| simpl; lia | simpl; lia].
  apply (f_equal (drop 1)) in H. cbn [drop] in H.
  apply (digits_app_inj 3) in H as [Hmilli _]; [| simpl; lia | simpl; lia].
  rewrite <- (fields_make_time t), <- (fields_make_time t').
  rewrite Hyear, Hdate, Hhour, Hmin, Hsec, Hmilli.
  by replace (MonthFromTime t) with (MonthFromTime t') by lia.
Qed.

End Dates.

(** ** What else the handler guarantees *)


(** X1: every request is answered with status 200, 400, 429 or 500, and
    every answer other than a 200 is one of the six fixed error responses
    of the source: whatever the failure was, none of its text reaches the
    response. *)
Theorem errors_are_fixed (env : Env) (st : State)
    (req_body : option JSValue) :
  exists resp st',
    extract_action_items req_body env st = (Returned resp, st') /\
    (status resp = 200 \/ status resp = 400 \/ status resp = 429
     \/ status resp = 500)%Z /\
    (status resp <> 200%Z -> resp ∈ FIXED_ERRORS).
Proof.
  destruct (run_cases env req_body st)
    as [(resp & st' & Hrun & Hin & _)
       | [(notes & text & v & _ & _ & _ & Hrun)
         | (notes & text & props & items & _ & _ & _ & Hrun)]].
  - exists resp, st'. split; [exact Hrun |].
    destruct (fixed_error_status resp Hin) as [Hstatus _].
    split; [tauto | done].
  - eexists _, _. split; [exact Hrun |].
    destruct (answer_status (S (stack_depth env)) v)
      as [(H200 & _) | (Hnot & _ & ->)]; [split; [by left | done] |].
    split; [by right; right; right |]. intros _. apply FAILED_TO_PROCESS_fixed.
  - cbv zeta in Hrun. eexists _, _. split; [exact Hrun |].
    match goal with
    | |- context [serializes ?n ?x] =>
      destruct (answer_status n x) as [(H200 & _) | (Hnot & _ & ->)]
    end; [split; [by left | done] |].
    split; [by right; right; right |]. intros _. apply FAILED_TO_PROCESS_fixed.
Qed.

(** X2: a request without a body object never reaches validation of the
    notes.  When [req.body] is missing or [null], destructuring it throws
    and the answer is the generic 500; when it is any other value that is
    not an object (an array, a string, a number, a boolean) it has no
    [notes] and the answer is the 400 invalid-input error.  No external
    call is made. *)
Theorem request_without_body_object (env : Env) (st : State)
    (req_body : option JSValue) :
  (forall props, req_body <> Some (JObject props)) ->
  extract_action_items req_body env st
  = (Returned match req_body with
              | None | Some JNull => FAILED_TO_PROCESS
              | Some _ => INVALID_INPUT
              end, st).
Proof.
  intros H. unfold extract_action_items, try_catch.
  destruct req_body as [[| | | | |props]|];
    try (match goal with
         | |- context [try_block ?b env st] =>
           change (try_block b env st) with (res_json INVALID_INPUT env st)
         end;
         by rewrite res_json_INVALID_INPUT).
  - change (catch_block (cannot_destructure "null") env st
            = (Returned FAILED_TO_PROCESS, st)).
    apply cannot_destructure_generic. by right.
  - by destruct (H props).
  - change (catch_block (cannot_destructure "undefined") env st
            = (Returned FAILED_TO_PROCESS, st)).
    apply cannot_destructure_generic. by left.
Qed.

Lemma request_without_body_object_witness :
  extract_action_items None silent initial
    = (Returned FAILED_TO_PROCESS, initial)
  /\ extract_action_items (Some (JArray [str "notes"])) silent initial
     = (Returned INVALID_INPUT, initial).
Proof.
  split.
  - apply (request_without_body_object silent initial None). discriminate.
  - apply (request_without_body_object silent initial
             (Some (JArray [str "notes"]))). discriminate.
Defined.

(** X3: a completion call is issued only for notes whose length, white
    space included, is between 10 and 50,000 code units, and the call
    carries those notes as they were sent. *)
Theorem call_only_for_bounded_notes (env : Env) (st st' : State)
    (req_body : option JSValue) (resp : Response) :
  extract_action_items req_body env st = (Returned resp, st') ->
  calls st' <> calls st ->
  exists props notes,
    req_body = Some (JObject props) /\
    props !! lit "notes" = Some (JString notes) /\
    10 <= String_length notes <= 50000 /\
    calls st' = calls st ++ [completion_request notes].
Proof.
  intros Hrun Hcalls.
  destruct (calls_after_run env st st' req_body resp Hrun)
    as [| (props & notes & Hbody & Hnotes & Hshort & Hlong & Hcall)];
    [done |].
  exists props, notes. pose proof (trim_length notes).
  split; [done |]. split; [done |]. split; [lia | done].
Qed.

Lemma call_only_for_bounded_notes_witness :
  exists props notes,
    sample_request = Some (JObject props) /\
    props !! lit "notes" = Some (JString notes) /\
    10 <= String_length notes <= 50000 /\
    calls (sample_done 2) = calls initial ++ [completion_request notes].
Proof.
  apply (call_only_for_bounded_notes (replying two_items) initial
           (sample_done 2) sample_request (mkResponse 200 two_items_result)).
  - vm_compute. reflexivity.
  - discriminate.
Defined.

(** X4: white space around the notes does not count towards the minimum
    of 10 characters.  Notes made of white space, then a text of fewer
    than 10 code units that neither begins nor ends with white space, then
    white space again, are answered with the too-short error however long
    they are; so are notes made of white space only. *)
Theorem padding_not_counted (env : Env) (st : State)
    (props : gmap jsstring JSValue) (l core r : jsstring) :
  props !! lit "notes" = Some (JString (l ++ core ++ r)) ->
  blank l -> blank r -> solid core ->
  l ++ core ++ r <> [] ->
  String_length core < 10 ->
  extract_action_items (Some (JObject props)) env st
    = (Returned TOO_SHORT, st).
Proof.
  intros Hnotes Hl Hr Hcore Hne Hshort.
  apply (too_short env props _ st Hnotes Hne).
  by rewrite trim_padded.
Qed.

Lemma padding_not_counted_witness :
  extract_action_items
    (body_with (JString (replicate (N.to_nat 60000) 32 ++ lit "call Bob"
                         ++ lit "  ")))
    silent initial
  = (Returned TOO_SHORT, initial).
Proof.
  apply (padding_not_counted silent initial
           {[ lit "notes" :=
                JString (replicate (N.to_nat 60000) 32 ++ lit "call Bob"
                         ++ lit "  ") ]}
           (replicate (N.to_nat 60000) 32) (lit "call Bob") (lit "  ")).
  - reflexivity.
  - apply Forall_replicate. reflexivity.
  - repeat constructor.
  - split; intros c [= <-]; reflexivity.
  - discriminate.
  - reflexivity.
Defined.

(** X5: the user message of the completion request is a fixed lead-in of
    48 code units followed by the notes, with nothing trimmed, escaped or
    cut: the notes can be read back from the request, and two different
    notes never give the same request. *)
Theorem prompt_carries_notes (notes notes' : jsstring) :
  drop 48 <$> user_content (completion_request notes) = Some notes
  /\ (completion_request notes = completion_request notes' ->
      notes = notes').
Proof.
  assert (forall s, drop 48 <$> user_content (completion_request s) = Some s)
    as Hback by reflexivity.
  split; [apply Hback |].
  intros H. apply (f_equal (fun r => drop 48 <$> user_content r)) in H.
  rewrite !Hback in H. by injection H.
Qed.

Lemma prompt_carries_notes_witness :
  drop 48 <$> user_content (completion_request sample_notes)
    = Some sample_notes
  /\ (completion_request sample_notes = completion_request sample_notes ->
      sample_notes = sample_notes).
Proof. apply (prompt_carries_notes sample_notes sample_notes). Defined.

(** X6: the clock is read once for every element of the [actionItems]
    array that lines 117-122 map, and at no other time.  After a request
    that was answered by a completion text that parsed, the number of
    readings has grown by the number of elements of the parsed
    [actionItems] array, zero when there is none, and this also when the
    result could then not be serialized and the answer is the generic 500;
    after every other request it has not grown.  In a 200 answer that
    number is the number of elements of the [actionItems] array of the
    answer. *)
Theorem clock_read_once_per_item (env : Env) (st st' : State)
    (req_body : option JSValue) (resp : Response) :
  extract_action_items req_body env st = (Returned resp, st') ->
  (forall notes text v,
     answered env st req_body notes text ->
     JSON_parse text = Some v ->
     ticks st' = (ticks st + length (ids_of v))%nat)
  /\ ((forall notes text,
         answered env st req_body notes text -> JSON_parse text = None) ->
      ticks st' = ticks st)
  /\ (status resp = 200%Z ->
      ticks st' = (ticks st + length (ids_of (body resp)))%nat).
Proof.
  intros Hrun. split; [| split].
  - intros notes text v Hanswered Hparse.
    rewrite (answered_run env st _ notes text v Hanswered Hparse) in Hrun.
    destruct (add_ids v env _) as [[result | error] st''] eqn:Hadd;
      apply add_ids_ticks in Hadd as [Hticks _].
    + injection Hrun as _ <-. exact Hticks.
    + destruct (catch_block_answers env error st'') as (resp' & Hcatch & _).
      rewrite Hcatch in Hrun. injection Hrun as _ <-. exact Hticks.
  - intros Hnone.
    destruct (run_cases env req_body st)
      as [(resp0 & st0 & Hrun0 & _ & Hticks)
         | [(notes & text & v & Hanswered & Hparse & _)
           | (notes & text & props & items & Hanswered & Hparse & _)]].
    + rewrite Hrun0 in Hrun. by injection Hrun as _ <-.
    + rewrite (Hnone notes text Hanswered) in Hparse. discriminate.
    + rewrite (Hnone notes text Hanswered) in Hparse. discriminate.
  - intros H200.
    destruct (status_200_inv env req_body st st' resp Hrun H200)
      as (notes & text & v & _ & _ & Hadd & _).
    apply add_ids_ticks in Hadd as [Hticks Hlength].
    by rewrite (Hlength (body resp) eq_refl).
Qed.

Lemma clock_read_once_per_item_witness :
  ticks (sample_done 1)
  = (ticks initial
     + length (ids_of (obj [prop "actionItems"
                              (JArray [nested (pred deep)])])))%nat
  /\ ticks (sample_done 2)
     = (ticks initial + length (ids_of two_items_result))%nat.
Proof.
  split.
  - destruct (clock_read_once_per_item (replying deep_item) initial
                (sample_done 1) sample_request FAILED_TO_PROCESS)
      as (H & _).
    + vm_compute. reflexivity.
    + apply (H sample_notes deep_item).
      * apply sample_answered.
      * vm_compute. reflexivity.
  - destruct (clock_read_once_per_item (replying two_items) initial
                (sample_done 2) sample_request
                (mkResponse 200 two_items_result)) as (_ & _ & H).
    + vm_compute. reflexivity.
    + apply H. reflexivity.
Defined.

(** X7: in every answer that has an [actionItems] array, every element of
    the array is an object with an [id] property, whatever the elements of
    the model's array were. *)
Theorem every_item_has_id (env : Env) (st st' : State)
    (req_body : option JSValue) (resp : Response)
    (items' : list JSValue) (item' : JSValue) :
  extract_action_items req_body env st = (Returned resp, st') ->
  property (body resp) "actionItems" = Some (JArray items') ->
  item' ∈ items' ->
  exists fields id, item' = JObject fields /\ fields !! lit "id" = Some id.
Proof.
  intros Hrun Hitems Hin.
  pose proof (fixed_error_status _ FAILED_TO_PROCESS_fixed) as [_ Hfailed].
  destruct (run_cases env req_body st)
    as [(resp0 & st0 & Hrun0 & Hfixed & _)
       | [(notes & text & v & _ & _ & Harray & Hrun0)
         | (notes & text & props & items & _ & _ & _ & Hrun0)]];
    cbv zeta in Hrun0; rewrite Hrun0 in Hrun.
  - injection Hrun as <- <-.
    destruct (fixed_error_status resp0 Hfixed) as [_ Hnone]. congruence.
  - destruct (serializes _ v); assert (Hresp := f_equal fst Hrun);
      cbn [fst] in Hresp; injection Hresp as <-; [| congruence].
    simpl in Hitems. by rewrite Hitems in Harray.
  - destruct (serializes _ _); assert (Hresp := f_equal fst Hrun);
      cbn [fst] in Hresp; injection Hresp as <-; [| congruence].
    cbn [body property] in Hitems. rewrite lookup_insert_eq in Hitems.
    injection Hitems as <-.
    apply list_elem_of_lookup in Hin as [k Hk].
    rewrite stamped_lookup in Hk.
    destruct (items !! k) as [item|]; [| discriminate].
    injection Hk as <-. apply stamped_item_has_id.
Qed.

Lemma every_item_has_id_witness :
  exists fields id,
    obj [prop "0" (str "a"); prop "1" (str "b");
         prop "id" (str "item-1700000000000-0")] = JObject fields /\
    fields !! lit "id" = Some id.
Proof.
  apply (every_item_has_id (replying string_item) initial (sample_done 1)
           sample_request (mkResponse 200 string_item_result)
           [obj [prop "0" (str "a"); prop "1" (str "b");
                 prop "id" (str "item-1700000000000-0")]]).
  - vm_compute. reflexivity.
  - reflexivity.
  - apply elem_of_cons. by left.
Defined.

(** X8: when no element of the model's [actionItems] array has an [id]
    property of its own, the answer is a 200 when the result serializes
    and the generic 500 when it does not, and in the 200 the elements
    have pairwise different ids, one for each element of the model's
    array, whatever the clock reads: also when it stands still or goes
    backwards. *)
Theorem injected_ids_unique (env : Env) (st : State)
    (req_body : option JSValue) (notes text : jsstring)
    (props : gmap jsstring JSValue) (items : list JSValue) :
  answered env st req_body notes text ->
  JSON_parse text = Some (JObject props) ->
  props !! lit "actionItems" = Some (JArray items) ->
  (forall item, item ∈ items ->
                own_properties (Some item) !! lit "id" = None) ->
  let result :=
    JObject (<[ lit "actionItems" :=
                JArray (stamped env (ticks st) 0 items) ]> props) in
  exists resp st',
    extract_action_items req_body env st = (Returned resp, st') /\
    (serializes (S (stack_depth env)) result = true ->
     resp = mkResponse 200 result) /\
    (serializes (S (stack_depth env)) result = false ->
     resp = FAILED_TO_PROCESS) /\
    (status resp = 200%Z ->
     length (ids_of (body resp)) = length items /\
     NoDup (ids_of (body resp))).
Proof.
  intros Hanswered Hparse Hitems Hfresh result.
  rewrite (answered_run env st req_body notes text _ Hanswered Hparse).
  rewrite (add_ids_array env props items _ Hitems).
  cbn [after_call ticks]. fold result.
  eexists _, _. split; [reflexivity |].
  destruct (serializes _ result); (split; [done |]); (split; [done |]);
    [| discriminate].
  intros _. unfold ids_of, result. cbn [body property].
  rewrite lookup_insert_eq.
  split; [by rewrite length_fmap, stamped_length |].
  apply NoDup_alt. intros i j x Hi Hj.
  rewrite list_lookup_fmap in Hi, Hj.
  destruct (stamped env _ 0 items !! i) as [a|] eqn:Ha; [| discriminate].
  destruct (stamped env _ 0 items !! j) as [b|] eqn:Hb; [| discriminate].
  simpl in Hi, Hj. destruct (decide (i = j)) as [| Hij]; [done |].
  exfalso.
  apply (injected_ids_distinct env (ticks st) items i j a b);
    try done; [| congruence].
  intros k item Hk. apply Hfresh. by apply list_elem_of_lookup_2 in Hk.
Qed.

Lemma injected_ids_unique_witness :
  exists resp st',
    extract_action_items sample_request
      (replying_at (frozen 0) two_items) initial = (Returned resp, st') /\
    status resp = 200%Z /\
    length (ids_of (body resp)) = 2%nat /\
    NoDup (ids_of (body resp)).
Proof.
  destruct (injected_ids_unique (replying_at (frozen 0) two_items) initial
              sample_request sample_notes two_items two_items_props
              [obj [prop "task" (str "A")]; obj [prop "task" (str "B")]])
    as (resp & st' & Hrun & H200 & _ & Hids).
  - apply sample_answered.
  - vm_compute. reflexivity.
  - reflexivity.
  - intros item Hin.
    apply elem_of_cons in Hin as [-> | Hin]; [reflexivity |].
    apply elem_of_cons in Hin as [-> | Hin]; [reflexivity |].
    by apply elem_of_nil in Hin.
  - exists resp, st'. split; [exact Hrun |].
    assert (status resp = 200%Z) as Hstatus.
    { rewrite H200; [reflexivity |]. vm_compute. reflexivity. }
    split; [exact Hstatus |]. apply Hids. exact Hstatus.
Defined.

(** X9: the id built at line 119 tells the clock reading and the position
    it was built from: two ids are equal only when both are. *)
Theorem item_id_inj (now now' : Z) (index index' : nat) :
  item_id now index = item_id now' index' ->
  now = now' /\ index = index'.
Proof.
  intros H. split.
  - by apply (item_id_now_inj now now' index index').
  - by apply (item_id_index_inj now now' index index').
Qed.

Lemma item_id_inj_witness :
  1700000000000%Z = 1700000000000%Z /\ 7%nat = 7%nat.
Proof.
  apply (item_id_inj 1700000000000 1700000000000 7 7). reflexivity.
Defined.

(** X10: an empty [actionItems] array is left as it is: lines 117-122
    return the parsed object itself and the clock is not read.  The
    answer is a 200 whose body is the parsed object when it serializes,
    and the generic 500 when another of its fields is nested too deeply
    for the call stack. *)
Theorem empty_actionItems_unchanged (env : Env) (st : State)
    (req_body : option JSValue) (notes text : jsstring)
    (props : gmap jsstring JSValue) :
  answered env st req_body notes text ->
  JSON_parse text = Some (JObject props) ->
  props !! lit "actionItems" = Some (JArray []) ->
  let st1 := after_call st (completion_request notes) in
  add_ids (JObject props) env st1 = (Returned (JObject props), st1)
  /\ (serializes (S (stack_depth env)) (JObject props) = true ->
      extract_action_items req_body env st
      = (Returned (mkResponse 200 (JObject props)), st1))
  /\ (serializes (S (stack_depth env)) (JObject props) = false ->
      extract_action_items req_body env st
      = (Returned FAILED_TO_PROCESS, st1)).
Proof.
  intros Hanswered Hparse Hitems st1.
  rewrite (answered_run env st req_body notes text _ Hanswered Hparse).
  fold st1. rewrite (add_ids_array env props [] _ Hitems).
  unfold stamped. cbn [imap length]. rewrite after_ticks_0.
  rewrite (insert_id props _ _ Hitems).
  split; [reflexivity |]. split; by intros ->.
Qed.

Lemma empty_actionItems_unchanged_witness :
  extract_action_items sample_request (replying no_items) initial
  = (Returned (mkResponse 200
                 (obj [prop "actionItems" (JArray []);
                       prop "summary" (str "none")])),
     after_call initial (completion_request sample_notes)).
Proof.
  destruct (empty_actionItems_unchanged (replying no_items) initial
              sample_request sample_notes no_items
              (list_to_map [prop "actionItems" (JArray []);
                            prop "summary" (str "none")]))
    as (_ & H & _).
  - apply sample_answered.
  - vm_compute. reflexivity.
  - reflexivity.
  - apply H. vm_compute. reflexivity.
Defined.

(** ** The health check and the routes *)


(** X11: a GET or HEAD request for [/health], in any case of letters and
    with or without a trailing slash, is answered 200 with
    [{ status: 'ok', timestamp }] whatever the body of the request is; the
    clock is read once and no completion call is made.  For a reading
    between the epoch and the end of the year 9999 the timestamp is the 24
    code units [YYYY-MM-DDTHH:mm:ss.sssZ], with a month from 01 to 12, a
    day from 01 to 31, an hour from 00 to 23, minutes and seconds from 00
    to 59, and these fields make the reading again. *)
Theorem health_check (env : Env) (st : State) (method path : jsstring)
    (req_body : option JSValue) :
  ascii_lower <$> method = lit "get" \/ ascii_lower <$> method = lit "head" ->
  route_matches "/health" path = true ->
  let now := clock env (ticks st) in
  routes method path req_body env st
  = (Returned
       (mkResponse 200
          (obj [prop "status" (str "ok");
                prop "timestamp" (JString (JSDate.toISOString now))])),
     mkState (calls st) (S (ticks st)))
  /\ ((0 <= now < 253402300800000)%Z ->
      String_length (JSDate.toISOString now) = 24 /\
      exists Y M D h m s ms,
        JSDate.toISOString now
        = JSDate.digits 4 Y ++ lit "-" ++ JSDate.digits 2 M ++ lit "-"
          ++ JSDate.digits 2 D ++ lit "T" ++ JSDate.digits 2 h ++ lit ":"
          ++ JSDate.digits 2 m ++ lit ":" ++ JSDate.digits 2 s ++ lit "."
          ++ JSDate.digits 3 ms ++ lit "Z" /\
        (1970 <= Y <= 9999 /\ 1 <= M <= 12 /\ 1 <= D <= 31 /\
         0 <= h <= 23 /\ 0 <= m <= 59 /\ 0 <= s <= 59 /\ 0 <= ms <= 999)%Z /\
        JSDate.MakeDate (JSDate.MakeDay Y (M - 1) D)
          (JSDate.MakeTime h m s ms) = now).
Proof.
  intros Hmethod Hpath now. split.
  - unfold routes. rewrite (handles_get method Hmethod), Hpath.
    apply health_run.
  - intros Hnow.
    pose proof (YearFromTime_four_digits now Hnow) as Hy.
    pose proof (MonthFromTime_bounds now) as Hm.
    pose proof (DateFromTime_bounds now) as Hd.
    pose proof (time_fields_bounds now) as (Hh & Hmi & Hs & Hms).
    assert (JSDate.year_string (JSDate.YearFromTime now)
            = JSDate.digits 4 (JSDate.YearFromTime now)) as Hyear.
    { unfold JSDate.year_string.
      destruct (Z.leb_spec 0 (JSDate.YearFromTime now)); [| lia].
      destruct (Z.leb_spec (JSDate.YearFromTime now) 9999); [done | lia]. }
    split.
    + unfold String_length, JSDate.toISOString. rewrite Hyear.
      rewrite !length_app, !length_digits. reflexivity.
    + exists (JSDate.YearFromTime now), (JSDate.MonthFromTime now + 1)%Z,
        (JSDate.DateFromTime now), (JSDate.HourFromTime now),
        (JSDate.MinFromTime now), (JSDate.SecFromTime now),
        (JSDate.msFromTime now).
      split; [unfold JSDate.toISOString; by rewrite Hyear |].
      split; [lia |].
      replace (JSDate.MonthFromTime now + 1 - 1)%Z
        with (JSDate.MonthFromTime now) by lia.
      apply fields_make_time.
Qed.

Lemma health_check_witness :
  routes (lit "HEAD") (lit "/Health/") None (replying two_items) initial
  = (Returned
       (mkResponse 200
          (obj [prop "status" (str "ok");
                prop "timestamp" (str "2023-11-14T22:13:20.000Z")])),
     mkState [] 1)
  /\ String_length (JSDate.toISOString 1700000000000) = 24.
Proof.
  destruct (health_check (replying two_items) initial (lit "HEAD")
              (lit "/Health/") None) as [Hrun Hshape];
    [by right | vm_compute; reflexivity |].
  split.
  - rewrite Hrun. vm_compute. reflexivity.
  - apply Hshape. vm_compute. split; [discriminate | reflexivity].
Defined.

(** X12: two health checks answer alike exactly when their clock readings
    are the same: the timestamp tells the reading to the millisecond. *)
Theorem health_timestamp_identifies_reading (env1 env2 : Env)
    (st1 st2 st1' st2' : State) (r1 r2 : Response) :
  health env1 st1 = (Returned r1, st1') ->
  health env2 st2 = (Returned r2, st2') ->
  JSDate.valid_time (clock env1 (ticks st1)) ->
  JSDate.valid_time (clock env2 (ticks st2)) ->
  r1 = r2 <-> clock env1 (ticks st1) = clock env2 (ticks st2).
Proof.
  rewrite !health_run. intros [= <- _] [= <- _] Hv1 Hv2. split.
  - intros H.
    apply (f_equal (fun resp => property (body resp) "timestamp")) in H.
    change (Some (JString (JSDate.toISOString (clock env1 (ticks st1))))
            = Some (JString (JSDate.toISOString (clock env2 (ticks st2)))))
      in H.
    apply toISOString_inj; [done | done | congruence].
  - by intros ->.
Qed.

Lemma health_timestamp_identifies_reading_witness :
  mkResponse 200
    (obj [prop "status" (str "ok");
          prop "timestamp" (str "2023-11-14T22:13:20.000Z")])
  = mkResponse 200
      (obj [prop "status" (str "ok");
            prop "timestamp" (str "2023-11-14T22:13:20.001Z")])
  <-> ticking 0 = ticking 1.
Proof.
  apply (health_timestamp_identifies_reading
           (replying two_items) (replying two_items)
           initial (mkState [] 1) (mkState [] 1) (mkState [] 2)).
  - vm_compute. reflexivity.
  - vm_compute. reflexivity.
  - vm_compute. split; discriminate.
  - vm_compute. split; discriminate.
Defined.

(** X13: of all the requests that reach the routes, only a POST for
    [/api/extract-action-items] (in any case of letters, with or without a
    trailing slash) can make a completion call, and it makes one call at
    most: the health check and the 404 handler never call the provider. *)
Theorem only_extract_route_calls_provider (env : Env) (st st' : State)
    (method path : jsstring) (req_body : option JSValue) (resp : Response) :
  routes method path req_body env st = (Returned resp, st') ->
  calls st' <> calls st ->
  ascii_lower <$> method = lit "post" /\
  route_matches "/api/extract-action-items" path = true /\
  exists notes, calls st' = calls st ++ [completion_request notes].
Proof.
  unfold routes. intros Hrun Hcalls.
  destruct (handles_method "get" method && route_matches "/health" path).
  { rewrite health_run in Hrun. injection Hrun as _ <-. done. }
  destruct (handles_method "post" method) eqn:Hmethod;
    [| unfold not_found in Hrun; rewrite res_json_NOT_FOUND in Hrun;
       injection Hrun as _ <-; done].
  destruct (route_matches "/api/extract-action-items" path);
    [| unfold not_found in Hrun; rewrite res_json_NOT_FOUND in Hrun;
       injection Hrun as _ <-; done].
  cbn [andb] in Hrun.
  destruct (calls_after_run env st st' req_body resp Hrun)
    as [| (props & notes & _ & _ & _ & _ & H)]; [done |].
  split; [by apply handles_post |]. split; [done | by exists notes].
Qed.

Lemma only_extract_route_calls_provider_witness :
  ascii_lower <$> lit "POST" = lit "post" /\
  route_matches "/api/extract-action-items"
    (lit "/api/extract-action-items") = true /\
  exists notes,
    calls (sample_done 2) = calls initial ++ [completion_request notes].
Proof.
  apply (only_extract_route_calls_provider (replying two_items) initial
           (sample_done 2) (lit "POST") (lit "/api/extract-action-items")
           sample_request (mkResponse 200 two_items_result)).
  - vm_compute. reflexivity.
  - discriminate.
Defined.

(** X14: every request that reaches the routes is answered, with status
    200, 400, 404, 429 or 500.  The answer is a 404 exactly when the
    request is neither a GET or HEAD for [/health] nor a POST for
    [/api/extract-action-items], and then it is the fixed
    [{ error: 'Endpoint not found' }], with no completion call and no
    reading of the clock. *)
Theorem not_found_exactly_when_unrouted (env : Env) (st : State)
    (method path : jsstring) (req_body : option JSValue) :
  let routed :=
    handles_method "get" method && route_matches "/health" path
    || handles_method "post" method
       && route_matches "/api/extract-action-items" path in
  exists resp st',
    routes method path req_body env st = (Returned resp, st') /\
    (status resp = 200 \/ status resp = 400 \/ status resp = 404
     \/ status resp = 429 \/ status resp = 500)%Z /\
    (status resp = 404%Z <-> routed = false) /\
    (routed = false -> resp = NOT_FOUND /\ st' = st).
Proof.
  cbv zeta. unfold routes.
  destruct (handles_method "get" method && route_matches "/health" path).
  { rewrite health_run. eexists _, _. split; [reflexivity |].
    split; [by left |]. split; [| done]. simpl. split; discriminate. }
  destruct (handles_method "post" method
            && route_matches "/api/extract-action-items" path).
  - destruct (answer_statuses env st req_body)
      as (resp & st' & Hrun & Hstatus).
    exists resp, st'. split; [exact Hrun |]. split; [lia |].
    split; [| done]. split; [lia | discriminate].
  - exists NOT_FOUND, st. split; [apply res_json_NOT_FOUND |].
    split; [right; right; by left |]. done.
Qed.

Lemma not_found_exactly_when_unrouted_witness :
  routes (lit "GET") (lit "/api/extract-action-items") sample_request
    (replying two_items) initial
  = (Returned NOT_FOUND, initial).
Proof.
  destruct (not_found_exactly_when_unrouted (replying two_items) initial
              (lit "GET") (lit "/api/extract-action-items") sample_request)
    as (resp & st' & Hrun & _ & _ & Hunrouted).
  destruct Hunrouted as [-> ->]; [vm_compute; reflexivity |].
  exact Hrun.
Defined.
